(** * Task orchestration of the proposal generator: a shallow embedding

    The development follows the Python sources of the repository:

    - [agents/pipeline/base_pipeline.py], [edit_pipeline.py],
      [full_proposal_pipeline.py] and [pipeline_executor.py]: dependency
      closure, level planning, prerequisite validation and the level-by-level
      execution loop;
    - [agents/master_agent/agent.py]: [get_sub_agents_to_rerun],
      [_expand_with_dependencies] and the part of [execute_pipeline] that
      injects tasks for extracted constraints and converts rates;
    - [agents/subagents/final_compilation/handlers.py]: the compile task.

    Python dictionaries used as maps are [gmap string _], the set
    [all_affected] is a [gset string], dictionaries that are iterated in
    insertion order are association lists, and Python floats are the
    primitive binary64 floats.  Exceptions are an explicit error type. *)

From Stdlib Require Import Ascii String Floats.
From stdpp Require Import gmap strings list sorting.

Open Scope string_scope.
Open Scope list_scope.
Open Scope nat_scope.
Open Scope stdpp_scope.

(** ** Python values and string helpers *)

(** The exceptions the modelled code can raise. *)
Inductive exn :=
| ValueError (msg : string)
| TypeError
| AttributeError
| AgentError (msg : string).

Inductive result (A : Type) :=
| Ok (a : A)
| Raise (e : exn).
Arguments Ok {A} a.
Arguments Raise {A} e.

(** Sequencing: an exception skips the rest ([x ← r; k] below). *)
#[global] Instance result_ret : MRet result := λ A a, Ok a.
#[global] Instance result_bind : MBind result := λ A B k r,
  match r with
  | Ok a => k a
  | Raise e => Raise e
  end.

(** The values stored in the state dictionary. *)
#[warnings="-register-all"]
Inductive value :=
| VNone
| VBool (b : bool)
| VInt (z : Z)
| VStr (s : string)
| VList (l : list value)
| VDict (d : list (string * value)).

(** Python truthiness ([bool(v)], [if v:], [not v]). *)
Definition truthy (v : value) : bool :=
  match v with
  | VNone => false
  | VBool b => b
  | VInt z => negb (z =? 0)%Z
  | VStr s => negb (String.eqb s "")
  | VList l => match l with [] => false | _ => true end
  | VDict d => match d with [] => false | _ => true end
  end.

(** [str.isspace] on the ASCII range: TAB, LF, VT, FF, CR, the four
    separators 28..31 and the space. *)
Definition py_isspace (c : ascii) : bool :=
  let n := nat_of_ascii c in
  ((9 <=? n) && (n <=? 13) || (28 <=? n) && (n <=? 31) || (n =? 32))%nat.

Fixpoint lstrip (s : string) : string :=
  match s with
  | String c s' => if py_isspace c then lstrip s' else s
  | EmptyString => EmptyString
  end.

Fixpoint rstrip (s : string) : string :=
  match s with
  | String c s' =>
      match rstrip s' with
      | EmptyString => if py_isspace c then EmptyString else String c EmptyString
      | t => String c t
      end
  | EmptyString => EmptyString
  end.

(** [s.strip()] *)
Definition strip (s : string) : string := rstrip (lstrip s).

(** [s.lower()] on the ASCII range. *)
Definition lower_ascii (c : ascii) : ascii :=
  let n := nat_of_ascii c in
  if ((65 <=? n) && (n <=? 90))%nat then ascii_of_nat (n + 32) else c.

Fixpoint lower (s : string) : string :=
  match s with
  | String c s' => String (lower_ascii c) (lower s')
  | EmptyString => EmptyString
  end.

(** [needle in haystack] for two strings. *)
Fixpoint is_substring (needle haystack : string) : bool :=
  String.prefix needle haystack ||
  match haystack with
  | String _ h' => is_substring needle h'
  | EmptyString => false
  end.

(** [len(v)]; numbers, booleans and [None] have no length. *)
Definition py_len (v : value) : result nat :=
  match v with
  | VStr s => Ok (String.length s)
  | VList l => Ok (length l)
  | VDict d => Ok (length d)
  | VNone | VBool _ | VInt _ => Raise TypeError
  end.

(** [a in v] for a string [a]: list membership, dictionary key membership,
    substring test; other values are not containers. *)
Definition py_in (a : string) (v : value) : result bool :=
  match v with
  | VList l =>
      Ok (existsb (λ x, match x with
                        | VStr s => String.eqb a s
                        | _ => false
                        end) l)
  | VDict d => Ok (existsb (λ kv, String.eqb a kv.1) d)
  | VStr s => Ok (is_substring a s)
  | VNone | VBool _ | VInt _ => Raise TypeError
  end.

(** [d.get(key)] for a dictionary kept in insertion order. *)
Fixpoint dict_get {A} (key : string) (d : list (string * A)) : option A :=
  match d with
  | [] => None
  | (k, v) :: d' => if String.eqb key k then Some v else dict_get key d'
  end.

(** ** The dependency closure shared by the edit pipeline and the master agent

    [dependencies] is the dictionary of the source, in insertion order: an
    entry [(agent_name, deps)] says that [agent_name] depends on [deps]. *)

Section DependencyClosure.

Variable dependencies : list (string * list string).

(** The [for agent_name, deps in dependencies.items()] loop of one
    iteration of the [while]. *)
Fixpoint scan_dependents (current_agent : string)
    (entries : list (string * list string))
    (all_affected : gset string) (to_process : list string)
  : gset string * list string :=
  match entries with
  | [] => (all_affected, to_process)
  | (agent_name, deps) :: entries' =>
      if decide (current_agent ∈ deps ∧ agent_name ∉ all_affected)
      then scan_dependents current_agent entries'
             ({[agent_name]} ∪ all_affected) (to_process ++ [agent_name])
      else scan_dependents current_agent entries' all_affected to_process
  end.

(** [while to_process: current_agent = to_process.pop(0); ...].  The loop is
    given fuel; [None] means the fuel ran out before the queue emptied. *)
Fixpoint closure_loop (fuel : nat) (all_affected : gset string)
    (to_process : list string) : option (gset string) :=
  match to_process with
  | [] => Some all_affected
  | current_agent :: rest =>
      match fuel with
      | O => None
      | S fuel' =>
          let '(all_affected', to_process') :=
            scan_dependents current_agent dependencies all_affected rest in
          closure_loop fuel' all_affected' to_process'
      end
  end.

(** [all_affected = set(primary_agents); to_process = list(primary_agents)]
    followed by the loop.  Every agent enters the queue at most once after
    the initial ones, so this much fuel always suffices
    (see [forward_closure_total]). *)
Definition forward_closure (primary_agents : list string) : option (gset string) :=
  closure_loop (length primary_agents + length dependencies)
    (list_to_set primary_agents) primary_agents.

(** [[a for a in agent_order if a in all_affected]] *)
Definition in_execution_order (agent_order : list string)
    (all_affected : gset string) : list string :=
  filter (λ a, a ∈ all_affected) agent_order.

(** The closure as a relation: the requested agents, and every agent that
    lists a reached agent among its dependencies. *)
Inductive reaches (primary_agents : list string) : string → Prop :=
| reaches_primary a :
    a ∈ primary_agents → reaches primary_agents a
| reaches_dependent a agent_name deps :
    reaches primary_agents a →
    (agent_name, deps) ∈ dependencies →
    a ∈ deps →
    reaches primary_agents agent_name.

(** The table keys that are not affected yet bound the work left in the
    loop. *)
Definition pending (all_affected : gset string) : nat :=
  size ((list_to_set (dependencies.*1) : gset string) ∖ all_affected).

(** Invariant of the loop: the request is affected, the queue holds
    affected agents, affected agents are reached from the request, and an
    affected agent that left the queue has all its dependents affected. *)
Definition closure_inv (primary_agents : list string)
    (all_affected : gset string) (to_process : list string) : Prop :=
  (∀ a, a ∈ primary_agents → a ∈ all_affected)
  ∧ (∀ a, a ∈ to_process → a ∈ all_affected)
  ∧ (∀ a, a ∈ all_affected → reaches primary_agents a)
  ∧ (∀ a, a ∈ all_affected → a ∈ to_process ∨
        ∀ n deps, (n, deps) ∈ dependencies → a ∈ deps → n ∈ all_affected).

End DependencyClosure.

(** ** State, sessions and the run-time environment *)

(** The proposal state: a dictionary from keys to values. *)
Abbreviation State := (gmap string value).

(** The attributes of the proposal session that the pipelines read or write.
    [saves] counts the calls of [session.save()]. *)
Record Session := {
  is_proposal_generated : bool;
  initial_idea : option string;
  proposal_title : string;
  current_stage : string;
  saves : nat
}.

(** What the pipelines do not define themselves: the agent registry, an
    agent being the composition of its [prepare_state] and [run], and the
    order in which the futures of one batch complete ([as_completed]).
    Agents are functions of the state copy they receive; streaming callbacks
    and printing are left out. *)
Record Runtime := {
  AGENT_REGISTRY : string → option (State → result State);
  as_completed :
    list (string * result State) → list (string * result State)
}.

(** How a call ends.  [Diverges] is a loop that ran out of fuel. *)
Inductive outcome :=
| Returns
| Raises (e : exn)
| Diverges.

(** A pipeline run: how it ended, the state dictionary and the session as
    the call leaves them (both are mutated in place), and the batches of
    agents submitted to a thread pool, in order. *)
Record Run := {
  run_outcome : outcome;
  final_state : State;
  final_session : Session;
  batches : list (list string)
}.

(** [_run_agent], the same in both pipelines. *)
Definition _run_agent (rt : Runtime) (agent_name : string) (state : State)
  : result State :=
  match AGENT_REGISTRY rt agent_name with
  | None => Raise (ValueError ("Agent '" +:+ agent_name +:+ "' not found in registry"))
  | Some agent => agent state
  end.

(** [{executor.submit(self._run_agent, agent_name, state.copy(), ...)
      for agent_name in agents}]: every agent of the batch gets a copy of
    the state as it is when the batch is submitted. *)
Definition submit_all (rt : Runtime) (agents : list string) (state : State)
  : list (string * result State) :=
  map (λ agent_name, (agent_name, _run_agent rt agent_name state)) agents.

(** ** agents/pipeline/base_pipeline.py *)

Module BasePipeline.

Definition validate_prerequisites (state : State) : bool := true.

End BasePipeline.

(** ** agents/pipeline/edit_pipeline.py *)

Module EditPipeline.

Record self := {
  session : Session;
  agents_to_update : list string
}.

Definition get_agent_dependencies : list (string * list string) :=
  [ ("scope_refinement", []);
    ("business_analyst", ["scope_refinement"]);
    ("technical_architect", ["scope_refinement"]);
    ("project_manager",
       ["scope_refinement"; "business_analyst"; "technical_architect"]);
    ("resource_allocation",
       ["scope_refinement"; "business_analyst"; "technical_architect";
        "project_manager"]) ].

Definition agent_order : list string :=
  [ "title"; "scope_refinement"; "business_analyst"; "technical_architect";
    "project_manager"; "resource_allocation" ].

(** [_expand_with_dependencies] with the result of
    [self.get_agent_dependencies()] as a parameter. *)
Definition _expand_with_dependencies_on
    (dependencies : list (string * list string))
    (this : self) (primary_agents : list string) : option (list string) :=
  if decide (length primary_agents = 1) then Some primary_agents
  else if negb (is_proposal_generated (session this)) then
    let ordered_agents := filter (λ a, a ∈ primary_agents) agent_order in
    Some (match ordered_agents with
          | [] => primary_agents
          | _ => ordered_agents
          end)
  else
    all_affected ← forward_closure dependencies primary_agents;
    Some (in_execution_order agent_order all_affected).

Definition _expand_with_dependencies (this : self)
    (primary_agents : list string) : option (list string) :=
  _expand_with_dependencies_on get_agent_dependencies this primary_agents.

Definition get_agent_sequence (this : self) : option (list string) :=
  _expand_with_dependencies this (agents_to_update this).

(** [get_level] of [_group_by_dependency_level].  The recursion follows the
    dependency table and is given fuel; the dictionary [agent_levels] of the
    source only caches the values of this function. *)
Fixpoint get_level (fuel : nat) (dependencies : list (string * list string))
    (agent_sequence : list string) (agent_name : string) : option nat :=
  match fuel with
  | O => None
  | S fuel' =>
      match default [] (dict_get agent_name dependencies) with
      | [] => Some 0
      | deps =>
          dep_levels ← mapM (get_level fuel' dependencies agent_sequence)
                            (filter (λ dep, dep ∈ agent_sequence) deps);
          (* max(dep_levels, default=-1) + 1 *)
          Some (match dep_levels with
                | [] => 0
                | _ => max_list dep_levels + 1
                end)
      end
  end.

(** [groups[level].append(agent_name)] for every agent of the sequence. *)
Definition group_agents (leveled : list (string * nat)) : gmap nat (list string) :=
  foldl (λ groups '(agent_name, level),
           <[level := default [] (groups !! level) ++ [agent_name]]> groups)
        ∅ leveled.

(** [[groups[level] for level in sorted(groups.keys())]] *)
Definition groups_in_level_order (groups : gmap nat (list string))
  : list (list string) :=
  map (λ level, default [] (groups !! level))
      (merge_sort Nat.le (elements (dom groups))).

Definition _group_by_dependency_level_on
    (dependencies : list (string * list string))
    (this : self) (agent_sequence : list string) : option (list (list string)) :=
  let has_initial_idea :=
    match initial_idea (session this) with
    | Some idea => negb (String.eqb idea "") && negb (String.eqb (strip idea) "")
    | None => false
    end in
  if negb (is_proposal_generated (session this)) && has_initial_idea
  then Some [agent_sequence]
  else
    levels ← mapM (get_level (S (length dependencies)) dependencies agent_sequence)
                  agent_sequence;
    Some (groups_in_level_order (group_agents (zip agent_sequence levels))).

Definition _group_by_dependency_level (this : self)
    (agent_sequence : list string) : option (list (list string)) :=
  _group_by_dependency_level_on get_agent_dependencies this agent_sequence.

Definition validate_prerequisites (this : self) (state : State) : bool :=
  match agents_to_update this with
  | [] => false
  | _ => true
  end.

(** The [for future in as_completed(...)] loop: results are merged with
    [state.update] in completion order; the first exception leaves the loop
    with the merges made so far. *)
Fixpoint merge_completed (completed : list (string * result State))
    (state : State) : option exn * State :=
  match completed with
  | [] => (None, state)
  | (agent_name, Ok updated_state) :: rest =>
      merge_completed rest (updated_state ∪ state)
  | (agent_name, Raise e) :: _ => (Some e, state)
  end.

Definition execute (rt : Runtime) (this : self) (state : State) : Run :=
  if negb (validate_prerequisites this state) then
    {| run_outcome := Raises (ValueError "Prerequisites not met for edit pipeline. Agents to update must be specified.");
       final_state := state; final_session := session this; batches := [] |}
  else
    match get_agent_sequence this with
    | None =>
        {| run_outcome := Diverges;
           final_state := state; final_session := session this; batches := [] |}
    | Some [] =>
        (* ThreadPoolExecutor(max_workers=0) *)
        {| run_outcome := Raises (ValueError "max_workers must be greater than 0");
           final_state := state; final_session := session this; batches := [] |}
    | Some agent_sequence =>
        (* all agents of the sequence in one pool *)
        let futures := submit_all rt agent_sequence state in
        let '(failure, state') := merge_completed (as_completed rt futures) state in
        {| run_outcome := match failure with
                          | None => Returns
                          | Some e => Raises e
                          end;
           final_state := state'; final_session := session this;
           batches := [agent_sequence] |}
    end.

End EditPipeline.

(** ** agents/master_agent/agent.py *)

Module MasterAgent.

(** One entry of [extracted_settings["rates"]]. [float(x)] of the source is
    [Some f], or [None] when it raises [ValueError] or [TypeError]. *)
Inductive rate_info :=
| RateWithUnit (value : option float) (unit : string)
    (* a dict with the keys "value" and "unit" *)
| RateNumber (n : float)
    (* an int or a float *)
| RateOther (parsed : option float).
    (* anything else: a string, a dict without those keys, ... *)

(** [routing_decision["extracted_settings"]]; [None] is an absent key. *)
Record ExtractedSettings := {
  rates : option (list (string * rate_info));
  budget : option string;
  timeline : option string;
  other_settings : list (string * value)
}.

Record RoutingDecision := {
  action : string;
  agents_to_rerun : list string;
  extracted_settings : ExtractedSettings
}.

(** [_expand_with_dependencies]: the table and the order are local to the
    method. *)
Definition agent_dependencies : list (string * list string) :=
  [ ("scope_refinement", []);
    ("business_analyst", ["scope_refinement"]);
    ("technical_architect", ["scope_refinement"; "business_analyst"]);
    ("project_manager",
       ["scope_refinement"; "business_analyst"; "technical_architect"]);
    ("resource_allocation",
       ["scope_refinement"; "business_analyst"; "technical_architect";
        "project_manager"]) ].

Definition agent_order : list string :=
  [ "scope_refinement"; "business_analyst"; "technical_architect";
    "project_manager"; "resource_allocation" ].

Definition _expand_with_dependencies (primary_agents : list string)
  : option (list string) :=
  all_affected ← forward_closure agent_dependencies primary_agents;
  Some (in_execution_order agent_order all_affected).

Definition get_sub_agents_to_rerun (routing_decision : RoutingDecision)
  : option (list string) :=
  let agents_to_rerun := agents_to_rerun routing_decision in
  match agents_to_rerun with
  | [] => Some []
  | _ =>
      let action := action routing_decision in
      if String.eqb action "generate_proposal"
      then _expand_with_dependencies agents_to_rerun
      else if bool_decide (length agents_to_rerun = 1) && String.eqb action "edit"
      then Some agents_to_rerun
      else _expand_with_dependencies agents_to_rerun
  end.










End MasterAgent.

(** ** agents/pipeline/full_proposal_pipeline.py *)

Module FullProposalPipeline.

Record self := {
  session : Session
}.

Definition get_agent_sequence : list string :=
  [ "title"; "scope_refinement"; "business_analyst"; "technical_architect";
    "project_manager"; "resource_allocation"; "final_compilation" ].

Definition get_parallel_groups : list (list string) :=
  [ ["title"];
    [ "scope_refinement"; "business_analyst"; "technical_architect";
      "project_manager"; "resource_allocation" ];
    ["final_compilation"] ].

(** Not overridden: the method of the base class. *)
Definition validate_prerequisites (this : self) (state : State) : bool :=
  BasePipeline.validate_prerequisites state.

(** [[agent for agent in agent_sequence if agent in enabled_agents]] *)
Fixpoint keep_enabled (enabled_agents : value) (agent_sequence : list string)
  : result (list string) :=
  match agent_sequence with
  | [] => Ok []
  | agent :: rest =>
      keep ← py_in agent enabled_agents;
      rest' ← keep_enabled enabled_agents rest;
      Ok (if keep : bool then agent :: rest' else rest')
  end.

(** The agent sequence after [enabled_agents = state.get("enabled_agents")]
    and [if enabled_agents:]. *)
Definition enabled_sequence (state : State) : result (list string) :=
  match state !! "enabled_agents" with
  | Some enabled_agents =>
      if truthy enabled_agents
      then keep_enabled enabled_agents get_agent_sequence
      else Ok get_agent_sequence
  | None => Ok get_agent_sequence
  end.

(** [filtered_parallel_groups]: every group restricted to the sequence,
    empty groups left out. *)
Fixpoint filter_groups (agent_sequence : list string)
    (parallel_groups : list (list string)) : list (list string) :=
  match parallel_groups with
  | [] => []
  | group :: rest =>
      let filtered_group := filter (λ agent, agent ∈ agent_sequence) group in
      match filtered_group with
      | [] => filter_groups agent_sequence rest
      | _ => filtered_group :: filter_groups agent_sequence rest
      end
  end.

(** The groups [execute] iterates over. *)
Definition planned_groups (state : State) : result (list (list string)) :=
  agent_sequence ← enabled_sequence state;
  Ok (filter_groups agent_sequence get_parallel_groups).

(** After the title agent completed, its title is stored in the session and
    the session is saved at once. *)
Definition save_title (agent_name : string) (updated_state : State)
    (sess : Session) : result Session :=
  if String.eqb agent_name "title" then
    match updated_state !! "proposal_title" with
    | None => Ok sess
    | Some (VStr s) =>
        let title := strip s in
        if String.eqb title "" then Ok sess
        else Ok {| is_proposal_generated := is_proposal_generated sess;
                   initial_idea := initial_idea sess;
                   proposal_title := title;
                   current_stage := current_stage sess;
                   saves := S (saves sess) |}
    | Some _ => Raise AttributeError
    end
  else Ok sess.

(** The [for future in as_completed(...)] loop of one group. *)
Fixpoint merge_completed (completed : list (string * result State))
    (state : State) (sess : Session) : option exn * State * Session :=
  match completed with
  | [] => (None, state, sess)
  | (agent_name, Ok updated_state) :: rest =>
      let state := updated_state ∪ state in
      match save_title agent_name updated_state sess with
      | Ok sess' => merge_completed rest state sess'
      | Raise e => (Some e, state, sess)
      end
  | (agent_name, Raise e) :: _ => (Some e, state, sess)
  end.

(** [for group_idx, agent_group in enumerate(parallel_groups)] *)
Fixpoint run_groups (rt : Runtime) (agent_sequence : list string)
    (parallel_groups : list (list string))
    (state : State) (sess : Session) (submitted : list (list string)) : Run :=
  match parallel_groups with
  | [] =>
      (* every group ran: mark the session *)
      {| run_outcome := Returns; final_state := state;
         final_session :=
           {| is_proposal_generated := true;
              initial_idea := initial_idea sess;
              proposal_title := proposal_title sess;
              current_stage := "completed";
              saves := S (saves sess) |};
         batches := submitted |}
  | agent_group :: rest =>
      let agents_to_run :=
        filter (λ a, a ∈ agent_sequence) agent_group in
      match agents_to_run with
      | [] => run_groups rt agent_sequence rest state sess submitted
      | _ =>
          let futures := submit_all rt agents_to_run state in
          let submitted := submitted ++ [agents_to_run] in
          match merge_completed (as_completed rt futures) state sess with
          | (None, state', sess') =>
              run_groups rt agent_sequence rest state' sess' submitted
          | (Some e, state', sess') =>
              {| run_outcome := Raises e; final_state := state';
                 final_session := sess'; batches := submitted |}
          end
      end
  end.

Definition execute (rt : Runtime) (this : self) (state : State) : Run :=
  if negb (validate_prerequisites this state) then
    {| run_outcome := Raises (ValueError "Prerequisites not met for full proposal generation. Initial idea is required.");
       final_state := state; final_session := session this; batches := [] |}
  else
    match enabled_sequence state with
    | Raise e =>
        {| run_outcome := Raises e;
           final_state := state; final_session := session this; batches := [] |}
    | Ok agent_sequence =>
        run_groups rt agent_sequence
          (filter_groups agent_sequence get_parallel_groups)
          state (session this) []
    end.

End FullProposalPipeline.

(** ** agents/pipeline/pipeline_executor.py *)

(** The interface of [BasePipeline] that the executor uses. *)
Class Pipeline (P : Type) := {
  pipeline_validate_prerequisites : P → State → bool;
  pipeline_execute : Runtime → P → State → Run;
  pipeline_session : P → Session
}.


#[global] Instance full_proposal_pipeline : Pipeline FullProposalPipeline.self := {|
  pipeline_validate_prerequisites := FullProposalPipeline.validate_prerequisites;
  pipeline_execute := FullProposalPipeline.execute;
  pipeline_session := FullProposalPipeline.session
|}.

Module PipelineExecutor.

(** [execute]: the run of the pipeline together with the stages of the
    progress notifications sent on the way. *)
Definition execute `{Pipeline P} (rt : Runtime) (pipeline : P) (state : State)
  : Run * list string :=
  if negb (pipeline_validate_prerequisites pipeline state) then
    ({| run_outcome := Raises (ValueError "Pipeline prerequisites not met");
        final_state := state;
        final_session := pipeline_session pipeline; batches := [] |},
     ["start"; "error"])
  else
    let r := pipeline_execute rt pipeline state in
    (r,
     match run_outcome r with
     | Returns => ["start"; "complete"]
     | Raises _ => ["start"; "error"]
     | Diverges => ["start"]
     end).

End PipelineExecutor.

(** ** agents/subagents/final_compilation/handlers.py *)

Module FinalCompilation.

Definition required_components : list (string * string) :=
  [ ("refined_scope", "refined scope");
    ("business_analysis", "business analysis");
    ("technical_spec", "technical specification");
    ("project_plan", "project plan");
    ("resource_plan", "resource plan") ].

(** [state.get(key, default)] *)
Definition get_or (state : State) (key : string) (default : value) : value :=
  match state !! key with
  | Some v => v
  | None => default
  end.

(** [str(component).strip() == ""].  Only a string can print as blank:
    [str] of [None], a boolean, an integer, a list or a dictionary contains
    a character that is not white space. *)
Definition prints_blank (component : value) : bool :=
  match component with
  | VStr s => String.eqb (strip s) ""
  | _ => false
  end.

(** [not component or str(component).strip() == ""] for
    [component = state.get(key, "")] *)
Definition is_missing (state : State) (key : string) : bool :=
  let component := get_or state key (VStr "") in
  negb (truthy component) || prints_blank component.

Definition missing_components (state : State) : list string :=
  snd <$> filter (λ kn, is_missing state kn.1 = true) required_components.

Definition error_msg (missing : list string) : string :=
  "Missing required components: " +:+ String.concat ", " missing.

Definition final_compilation_agent (state : State) : result State :=
  match missing_components state with
  | (_ :: _) as missing =>
      (* {**state, "current_stage": "failed", "error": error_msg} *)
      Ok (<["error" := VStr (error_msg missing)]>
            (<["current_stage" := VStr "failed"]> state))
  | [] =>
      let refined_scope := get_or state "refined_scope" (VStr "") in
      let business_analysis := get_or state "business_analysis" (VStr "") in
      let technical_spec := get_or state "technical_spec" (VStr "") in
      let project_plan := get_or state "project_plan" (VStr "") in
      let resource_plan := get_or state "resource_plan" (VStr "") in
      let initial_idea := get_or state "initial_idea" (VStr "") in
      let similar_products := get_or state "similar_products" (VStr "") in
      let proposal_title := get_or state "proposal_title" (VStr "Project Proposal") in
      (* the lengths printed in the progress message *)
      _ ← py_len refined_scope;
      _ ← py_len business_analysis;
      _ ← py_len technical_spec;
      _ ← py_len project_plan;
      _ ← py_len resource_plan;
      let final_proposal :=
        VDict [ ("title", proposal_title);
                ("initial_idea", initial_idea);
                ("similar_products", similar_products);
                ("refined_scope", refined_scope);
                ("business_analysis", business_analysis);
                ("technical_spec", technical_spec);
                ("project_plan", project_plan);
                ("resource_plan", resource_plan) ] in
      (* {**state, "final_proposal": final_proposal, "current_stage": "completed"} *)
      Ok (<["current_stage" := VStr "completed"]>
            (<["final_proposal" := final_proposal]> state))
  end.

End FinalCompilation.

(** ** agents/pipeline/pipeline_factory.py *)

Module PipelineFactory.

(** The pipelines the factory builds. *)
Inductive pipeline :=
| FullProposal (p : FullProposalPipeline.self)
| Edit (p : EditPipeline.self).

(** [create_pipeline]; [agents_to_update] is
    [kwargs.get("agents_to_update", [])]. *)
Definition create_pipeline (pipeline_type : string) (session : Session)
    (agents_to_update : list string) : result pipeline :=
  if String.eqb pipeline_type "full_proposal" then
    Ok (FullProposal {| FullProposalPipeline.session := session |})
  else if String.eqb pipeline_type "edit" then
    Ok (Edit {| EditPipeline.session := session;
                EditPipeline.agents_to_update := agents_to_update |})
  else Raise (ValueError ("Unknown pipeline type: " +:+ pipeline_type)).

Definition create_from_master_agent_instruction
    (instruction : MasterAgent.RoutingDecision) (session : Session)
  : result pipeline :=
  let action := MasterAgent.action instruction in
  let agents_to_rerun := MasterAgent.agents_to_rerun instruction in
  if String.eqb action "generate_proposal" then
    create_pipeline "full_proposal" session []
  else if String.eqb action "edit" then
    match agents_to_rerun with
    | [] => Raise (ValueError "Edit action requires agents_to_rerun to be specified")
    | _ => create_pipeline "edit" session agents_to_rerun
    end
  else
    Raise (ValueError ("Action '" +:+ action +:+
                       "' does not require a pipeline. Use conversation handler instead.")).

End PipelineFactory.

(** The factory's pipelines behind the interface of the executor: the
    methods of the class that was built. *)
#[global] Instance factory_pipeline : Pipeline PipelineFactory.pipeline := {|
  pipeline_validate_prerequisites p :=
    match p with
    | PipelineFactory.FullProposal q => FullProposalPipeline.validate_prerequisites q
    | PipelineFactory.Edit q => EditPipeline.validate_prerequisites q
    end;
  pipeline_execute rt p :=
    match p with
    | PipelineFactory.FullProposal q => FullProposalPipeline.execute rt q
    | PipelineFactory.Edit q => EditPipeline.execute rt q
    end;
  pipeline_session p :=
    match p with
    | PipelineFactory.FullProposal q => FullProposalPipeline.session q
    | PipelineFactory.Edit q => EditPipeline.session q
    end
|}.

(** ** agents/master_agent/agent.py: routing *)

Module Routing.

(** A routing decision with the keys that [route_request] and
    [_fallback_routing] set besides [action] and [agents_to_rerun]; [None]
    is an absent key, and an absent ["needs_proposal_generation"] reads as
    [False]. *)
Record RoutingResult := {
  decision : MasterAgent.RoutingDecision;
  relevant_context_sections : option (list string);
  reasoning : option string;
  confidence : option float;
  needs_proposal_generation : bool
}.

Definition no_settings : MasterAgent.ExtractedSettings :=
  {| MasterAgent.rates := None; MasterAgent.budget := None;
     MasterAgent.timeline := None; MasterAgent.other_settings := [] |}.

(** The keyword lists of [AGENT_RESPONSIBILITIES], in the order of the
    dictionary. *)
Definition AGENT_RESPONSIBILITIES : list (string * list string) :=
  [ ("scope_refinement",
       [ "idea"; "concept"; "scope"; "requirements"; "features";
         "functionality"; "what"; "purpose"; "goal" ]);
    ("business_analyst",
       [ "business"; "market"; "roi"; "revenue"; "profit"; "cost"; "benefit";
         "value"; "competition"; "target audience"; "customer" ]);
    ("technical_architect",
       [ "technical"; "technology"; "tech stack"; "architecture"; "framework";
         "api"; "database"; "backend"; "frontend"; "server" ]);
    ("project_manager",
       [ "timeline"; "schedule"; "deadline"; "milestone"; "phase"; "delivery";
         "planning"; "project plan" ]);
    ("resource_allocation",
       [ "budget"; "cost"; "price"; "rate"; "hourly"; "salary"; "team";
         "resource"; "engineer"; "developer"; "designer"; "dollar"; "usd";
         "money"; "expense" ]) ].

(** [any(pattern in text for pattern in patterns)] *)
Definition any_in (patterns : list string) (text : string) : bool :=
  existsb (λ pattern, is_substring pattern text) patterns.

Definition generate_triggers : list string :=
  [ "generate"; "generate proposal"; "go ahead"; "proceed"; "create proposal";
    "make proposal"; "let's go"; "lets go"; "start proposal"; "build proposal" ].

Definition greeting_patterns : list string :=
  [ "hello"; "hi"; "hey"; "greetings"; "good morning"; "good afternoon";
    "good evening" ].

Definition _fallback_routing (user_message : string) (has_proposal : bool)
  : RoutingResult :=
  let user_lower := lower user_message in
  if negb has_proposal then
    {| decision := {| MasterAgent.action := "conversation";
                      MasterAgent.agents_to_rerun := [];
                      MasterAgent.extracted_settings := no_settings |};
       relevant_context_sections := Some [];
       reasoning := None;
       confidence := Some 0.8%float;
       needs_proposal_generation := false |}
  else
    let agents_to_rerun :=
      (filter (λ entry, any_in entry.2 user_lower = true)
              AGENT_RESPONSIBILITIES).*1 in
    match agents_to_rerun with
    | _ :: _ =>
        {| decision := {| MasterAgent.action := "edit";
                          MasterAgent.agents_to_rerun := agents_to_rerun;
                          MasterAgent.extracted_settings := no_settings |};
           relevant_context_sections := Some [];
           reasoning := None;
           confidence := Some 0.7%float;
           needs_proposal_generation := false |}
    | [] =>
        {| decision := {| MasterAgent.action := "conversation";
                          MasterAgent.agents_to_rerun := [];
                          MasterAgent.extracted_settings := no_settings |};
           relevant_context_sections := Some [];
           reasoning := None;
           confidence := Some 0.7%float;
           needs_proposal_generation := false |}
    end.

(** [route_request].  [classified] is what the [try] block around the
    language-model call produces: the parsed decision, or [None] when the
    call or the parsing raises. *)
Definition route_request (classified : option RoutingResult)
    (user_message : string) (session : Session) : RoutingResult :=
  let lower_msg := lower user_message in
  if any_in generate_triggers lower_msg then
    {| decision := {| MasterAgent.action := "generate_proposal";
                      MasterAgent.agents_to_rerun := [];
                      MasterAgent.extracted_settings := no_settings |};
       relevant_context_sections := Some [];
       reasoning := Some "User explicitly requested proposal generation";
       confidence := Some 1%float;
       needs_proposal_generation := true |}
  else if any_in greeting_patterns lower_msg then
    {| decision := {| MasterAgent.action := "conversation";
                      MasterAgent.agents_to_rerun := [];
                      MasterAgent.extracted_settings := no_settings |};
       relevant_context_sections := None;
       reasoning := Some "Greeting detected";
       confidence := Some 1%float;
       needs_proposal_generation := false |}
  else
    match classified with
    | Some result => result
    | None => _fallback_routing user_message (is_proposal_generated session)
    end.


(** [list(dict.fromkeys(l))]: duplicates removed, first occurrences kept. *)
Fixpoint dedupe (seen l : list string) : list string :=
  match l with
  | [] => []
  | x :: l' =>
      if decide (x ∈ seen) then dedupe seen l' else x :: dedupe (x :: seen) l'
  end.

(** What [json.loads] returned in [_identify_relevant_sections]. *)
Inductive parsed_sections :=
| ParsedList (items : list value)
| ParsedDict (d : list (string * value))
| ParsedOther.

Definition valid_sections : list string :=
  [ "initial_idea"; "scope"; "business_analysis"; "technical_spec";
    "project_plan"; "resource_allocation"; "similar_products"; "title" ].

(** [[s for s in v if s in valid_sections]] for a value [v] taken from the
    parsed dictionary: the items of a list, the keys of a dictionary, the
    characters of a string; anything else cannot be iterated. *)
Definition valid_items (v : value) : result (list string) :=
  match v with
  | VList l =>
      Ok (omap (λ x, match x with
                     | VStr s => if decide (s ∈ valid_sections) then Some s else None
                     | _ => None
                     end) l)
  | VDict d => Ok (filter (λ s, s ∈ valid_sections) d.*1)
  | VStr s => Ok []
  | VNone | VBool _ | VInt _ => Raise TypeError
  end.

(** The keyword fallback of the [except] branch. *)
Definition sections_by_keyword (user_message : string) : list string :=
  let user_lower := lower user_message in
  if any_in ["budget"; "cost"; "price"; "how much"] user_lower
  then ["resource_allocation"]
  else if any_in ["timeline"; "schedule"; "when"; "how long"; "deadline"] user_lower
  then ["project_plan"]
  else if any_in ["technical"; "technology"; "tech stack"; "architecture"] user_lower
  then ["technical_spec"]
  else if any_in ["business"; "market"; "roi"; "revenue"] user_lower
  then ["business_analysis"]
  else if any_in ["features"; "functionality"; "scope"; "what does"] user_lower
  then ["scope"]
  else ["initial_idea"; "scope"].

(** [_identify_relevant_sections].  [parsed] is the result of the
    language-model call and [json.loads], or [None] when either raises. *)
Definition _identify_relevant_sections (parsed : option parsed_sections)
    (user_message : string) : list string :=
  let from_model : result (list string) :=
    match parsed with
    | None => Raise (ValueError "no result")
    | Some (ParsedList items) =>
        Ok (filter (λ s, s ∈ valid_sections)
              (omap (λ x, match x with
                          | VStr s => Some (strip s)
                          | _ => None
                          end) items))
    | Some (ParsedDict d) =>
        match dict_get "sections" d with
        | Some v => valid_items v
        | None =>
            match dict_get "section_ids" d with
            | Some v => valid_items v
            | None => Ok ["initial_idea"; "scope"]
            end
        end
    | Some ParsedOther => Ok ["initial_idea"; "scope"]
    end in
  let relevant_sections :=
    match from_model with
    | Ok [] => ["initial_idea"; "scope"]
    | Ok sections => sections
    | Raise _ => sections_by_keyword user_message
    end in
  dedupe [] relevant_sections.

End Routing.

(** ** agents/utils/result.py *)

Module ResultUtils.

(** [v.get(key, default)] on a value: only dictionaries have [get]. *)
Definition value_get (v : value) (key : string) (default : value)
  : result value :=
  match v with
  | VDict d => Ok (match dict_get key d with Some x => x | None => default end)
  | _ => Raise AttributeError
  end.

Definition compile_final_proposal (state : State) : result State :=
  let get := FinalCompilation.get_or state in
  html_content ← value_get (get "final_proposal" (VDict [])) "html_content" (VStr "");
  raw_content ← value_get (get "final_proposal" (VDict [])) "raw_content" (VStr "");
  Ok (list_to_map
        [ ("session_id", get "session_id" (VStr ""));
          ("initial_idea", get "initial_idea" (VStr ""));
          ("similar_products", get "similar_products" (VStr ""));
          ("refined_scope", get "refined_scope" (VStr ""));
          ("business_analysis", get "business_analysis" (VStr ""));
          ("technical_spec", get "technical_spec" (VStr ""));
          ("project_plan", get "project_plan" (VStr ""));
          ("resource_plan", get "resource_plan" (VStr ""));
          ("html_content", html_content);
          ("raw_content", raw_content);
          ("current_stage", get "current_stage" (VStr ""));
          ("error", get "error" (VStr "")) ]).

Definition get_proposal_content_as_html (proposal_data : State) : value :=
  FinalCompilation.get_or proposal_data "html_content" (VStr "").

Definition prepare_document_content (proposal_data : State)
    (format_type : string) : value :=
  if String.eqb (lower format_type) "html" then
    get_proposal_content_as_html proposal_data
  else if String.eqb (lower format_type) "raw" then
    FinalCompilation.get_or proposal_data "raw_content" (VStr "")
  else get_proposal_content_as_html proposal_data.



End ResultUtils.

(** ** agents/graph/proposal_graph.py and agents/graph/nodes.py *)

Module ProposalGraph.

Definition agent_order : list string :=
  [ "title"; "scope_refinement"; "business_analyst"; "technical_architect";
    "project_manager"; "resource_allocation"; "final_compilation" ].

(** [agent in agents_to_run and agent not in sections_generated], the test
    of [route_to_agent] and of [should_run_agent]; the second membership is
    evaluated only if the first holds. *)
Definition to_run (agents_to_run sections_generated : value) (agent : string)
  : result bool :=
  listed ← py_in agent agents_to_run;
  if listed : bool then
    generated ← py_in agent sections_generated;
    Ok (negb generated)
  else Ok false.

Definition should_run_agent (state : State) (agent_name : string)
  : result bool :=
  let agents_to_run := FinalCompilation.get_or state "agents_to_run" (VList []) in
  let sections_generated :=
    FinalCompilation.get_or state "sections_generated" (VList []) in
  to_run agents_to_run sections_generated agent_name.

(** The [for agent in agent_order] loop of [route_to_agent]. *)
Fixpoint first_to_run (agents_to_run sections_generated : value)
    (agents : list string) : result string :=
  match agents with
  | [] => Ok "end"
  | agent :: agents' =>
      run ← to_run agents_to_run sections_generated agent;
      if run : bool then Ok agent
      else first_to_run agents_to_run sections_generated agents'
  end.

Definition route_to_agent (state : State) : result string :=
  let agents_to_run := FinalCompilation.get_or state "agents_to_run" (VList []) in
  let sections_generated :=
    FinalCompilation.get_or state "sections_generated" (VList []) in
  first_to_run agents_to_run sections_generated agent_order.

(** The keys of the edge map that [create_proposal_graph] gives to a node,
    ["end"] standing for [END]; [final_compilation] has the one edge to
    [END]. *)
Definition edges (node : string) : list string :=
  if String.eqb node "title" then
    [ "title"; "scope_refinement"; "business_analyst"; "technical_architect";
      "project_manager"; "resource_allocation"; "final_compilation"; "end" ]
  else if String.eqb node "scope_refinement" then
    [ "scope_refinement"; "business_analyst"; "technical_architect";
      "project_manager"; "resource_allocation"; "final_compilation"; "end" ]
  else if String.eqb node "business_analyst" then
    [ "business_analyst"; "technical_architect"; "project_manager";
      "resource_allocation"; "final_compilation"; "end" ]
  else if String.eqb node "technical_architect" then
    [ "technical_architect"; "project_manager"; "resource_allocation";
      "final_compilation"; "end" ]
  else if String.eqb node "project_manager" then
    [ "project_manager"; "resource_allocation"; "final_compilation"; "end" ]
  else if String.eqb node "resource_allocation" then
    [ "resource_allocation"; "final_compilation"; "end" ]
  else if String.eqb node "final_compilation" then [ "end" ]
  else [].

(** The name of an agent in the message of its node. *)
Definition display_name (name : string) : string :=
  match dict_get name
          [ ("title", "Title"); ("scope_refinement", "Scope refinement");
            ("business_analyst", "Business analyst");
            ("technical_architect", "Technical architect");
            ("project_manager", "Project manager");
            ("resource_allocation", "Resource allocation");
            ("final_compilation", "Final compilation") ] with
  | Some shown => shown
  | None => name
  end.

(** The seven agent nodes of [nodes.py], which differ in the agent's name
    only: the agent of the registry (its [prepare_state] and [run]) is
    applied to the state, its result is merged into a copy of the state, and
    the name is appended to ["sections_generated"] as the state had it. *)
Definition agent_node (rt : Runtime) (name : string) (state : State)
  : result State :=
  match AGENT_REGISTRY rt name with
  | None => Raise (ValueError (display_name name +:+ " agent not found in registry"))
  | Some agent =>
      updated_state ← agent state;
      let new_state := updated_state ∪ state in
      sections_generated ←
        match FinalCompilation.get_or state "sections_generated" (VList []) with
        | VList l => Ok (VList (l ++ [VStr name]))
        | _ => Raise TypeError
        end;
      Ok (<["sections_generated" := sections_generated]> new_state)
  end.

End ProposalGraph.

(** ** Notions used to state the properties *)

(** The properties C3 asks of an expansion. *)
Definition closed_expansion (dependencies : list (string * list string))
    (agent_order primary_agents expanded : list string) : Prop :=
  (∀ a, a ∈ expanded ↔ a ∈ agent_order ∧ reaches dependencies primary_agents a)
  ∧ (∀ a n deps, a ∈ expanded → (n, deps) ∈ dependencies → a ∈ deps →
       n ∈ expanded)
  ∧ NoDup expanded
  ∧ expanded `sublist_of` agent_order.

(** The dependencies of an agent that are in the sequence. *)
Definition in_subset_deps (dependencies : list (string * list string))
    (agent_sequence : list string) (agent_name : string) : list string :=
  filter (λ dep, dep ∈ agent_sequence)
         (default [] (dict_get agent_name dependencies)).

(** The strings among the items of a Python list. *)
Definition string_items (l : list value) : list string :=
  omap (λ v, match v with VStr s => Some s | _ => None end) l.

(** The aggregate document assembled on success. *)
Definition assembled (state : State) : value :=
  let get := FinalCompilation.get_or state in
  VDict [ ("title", get "proposal_title" (VStr "Project Proposal"));
          ("initial_idea", get "initial_idea" (VStr ""));
          ("similar_products", get "similar_products" (VStr ""));
          ("refined_scope", get "refined_scope" (VStr ""));
          ("business_analysis", get "business_analysis" (VStr ""));
          ("technical_spec", get "technical_spec" (VStr ""));
          ("project_plan", get "project_plan" (VStr ""));
          ("resource_plan", get "resource_plan" (VStr "")) ].

(** The results of agents that all succeeded. *)
Definition succeeded (updates : list (string * State))
  : list (string * result State) :=
  (λ au, (au.1, Ok au.2)) <$> updates.

(** What saving the title may change in a session. *)
Definition title_update (before after : Session) : Prop :=
  is_proposal_generated after = is_proposal_generated before
  ∧ initial_idea after = initial_idea before
  ∧ current_stage after = current_stage before
  ∧ (proposal_title after = proposal_title before
     ∨ proposal_title after ≠ ""
       ∧ strip (proposal_title after) = proposal_title after).

(** [agent in agents_to_run and agent not in sections_generated] for two
    lists. *)
Definition pending_agent (agents_to_run sections_generated : list value)
    (agent : string) : bool :=
  let listed l :=
    existsb (λ x, match x with VStr s => String.eqb agent s | _ => false end) l in
  listed agents_to_run && negb (listed sections_generated).

(** ** Sample sessions, states and run-time environment *)

(** A session of a document whose full generation has completed. *)
Definition generated_session : Session :=
  {| is_proposal_generated := true;
     initial_idea := Some "Task management app for teams";
     proposal_title := "Team Task Manager Proposal";
     current_stage := "completed";
     saves := 1 |}.

Definition no_settings : MasterAgent.ExtractedSettings :=
  {| MasterAgent.rates := None; MasterAgent.budget := None;
     MasterAgent.timeline := None; MasterAgent.other_settings := [] |}.

(** The state of the handler's test. *)
Definition complete_state : State :=
  list_to_map
    [ ("initial_idea", VStr "Task management app for teams");
      ("similar_products", VStr "<div>Trello, Asana</div>");
      ("refined_scope", VStr "<p>Core features only</p>");
      ("business_analysis", VStr "<p>Market looks promising</p>");
      ("technical_spec", VStr "<p>FastAPI backend, React frontend</p>");
      ("project_plan", VStr "<p>3 phases, milestones and hours</p>");
      ("resource_plan", VStr "<p>Team of 4, budget breakdown</p>");
      ("proposal_title", VStr "Team Task Manager Proposal");
      ("final_proposal", VDict []);
      ("current_stage", VStr "completed") ].

(** A run-time environment in which every agent is registered and returns
    the state it was given, the futures completing in submission order. *)
Definition echo_runtime : Runtime :=
  {| AGENT_REGISTRY := λ _, Some (λ state, Ok state);
     as_completed := λ futures, futures |}.

Definition fresh_session : Session :=
  {| is_proposal_generated := false;
     initial_idea := None;
     proposal_title := "";
     current_stage := "initial";
     saves := 0 |}.

(** * Properties *)

(** ** The dependency closure *)

Section ClosureFacts.

Variable dependencies : list (string * list string).

(** One scan appends distinct new agents: those entries of the table that
    list the current agent and were not affected yet. *)
Lemma scan_dependents_spec current_agent entries all_affected to_process :
  ∃ new,
    scan_dependents current_agent entries all_affected to_process
      = (list_to_set new ∪ all_affected, to_process ++ new)
    ∧ NoDup new
    ∧ (∀ n, n ∈ new →
         n ∉ all_affected ∧ ∃ deps, (n, deps) ∈ entries ∧ current_agent ∈ deps)
    ∧ (∀ n deps, (n, deps) ∈ entries → current_agent ∈ deps →
         n ∈ (list_to_set new ∪ all_affected : gset string)).
Proof.
  revert all_affected to_process.
  induction entries as [|[agent_name deps] entries IH]; intros aff q; simpl.
  - exists []. split_and!.
    + f_equal; [set_solver | by rewrite app_nil_r].
    + constructor.
    + intros n Hn. by apply elem_of_nil in Hn.
    + intros n ds Hn. by apply elem_of_nil in Hn.
  - case_decide as Hc.
    + destruct Hc as [Hin Hfresh].
      destruct (IH ({[agent_name]} ∪ aff) (q ++ [agent_name]))
        as (new & Heq & Hnd & Hnew & Hall).
      exists (agent_name :: new). split_and!.
      * rewrite Heq. f_equal; [set_solver | by rewrite <- app_assoc].
      * constructor; [|done]. intros Hn. apply Hnew in Hn. set_solver.
      * intros n [->|Hn]%elem_of_cons.
        -- split; [done|]. exists deps. split; [left|done].
        -- destruct (Hnew n Hn) as [Hn1 (ds & Hds & Hcur)].
           split; [set_solver|]. exists ds. split; [by right|done].
      * intros n ds [Heq'|Hn]%elem_of_cons Hcur.
        -- simplify_eq. set_solver.
        -- specialize (Hall n ds Hn Hcur). set_solver.
    + destruct (IH aff q) as (new & Heq & Hnd & Hnew & Hall).
      exists new. split_and!; [done|done| |].
      * intros n Hn. destruct (Hnew n Hn) as [Hn1 (ds & Hds & Hcur)].
        split; [done|]. exists ds. split; [by right|done].
      * intros n ds [Heq'|Hn]%elem_of_cons Hcur.
        -- simplify_eq.
           destruct (decide (agent_name ∈ aff)) as [|Hna]; [set_solver|].
           exfalso. apply Hc. done.
        -- by apply (Hall n ds).
Qed.

Lemma pending_scan (new : list string) (all_affected : gset string) :
  NoDup new →
  (∀ n, n ∈ new → n ∉ all_affected ∧ n ∈ dependencies.*1) →
  length new + pending dependencies (list_to_set new ∪ all_affected)
  = pending dependencies all_affected.
Proof.
  intros Hnd Hnew. unfold pending.
  rewrite <- (size_list_to_set (C:=gset string) new Hnd).
  rewrite <- size_union by set_solver.
  f_equal. apply set_eq. intros x.
  rewrite elem_of_union, !elem_of_difference, elem_of_union,
    !elem_of_list_to_set.
  split.
  - intros [Hx|[Hx Hnx]]; [|tauto].
    destruct (Hnew x Hx). tauto.
  - intros [Hx Hnx]. destruct (decide (x ∈ new)); tauto.
Qed.

Lemma closure_loop_total fuel all_affected to_process :
  length to_process + pending dependencies all_affected ≤ fuel →
  is_Some (closure_loop dependencies fuel all_affected to_process).
Proof.
  revert all_affected to_process.
  induction fuel as [|fuel IH]; intros aff [|cur rest]; simpl; intros Hle;
    try (by eexists); try lia.
  destruct (scan_dependents_spec cur dependencies aff rest)
    as (new & -> & Hnd & Hnew & _).
  apply IH. rewrite length_app.
  assert (length new + pending dependencies (list_to_set new ∪ aff)
          = pending dependencies aff) as Hp.
  { apply pending_scan; [done|]. intros n Hn.
    destruct (Hnew n Hn) as [? (ds & Hds & _)].
    split; [done|]. apply list_elem_of_fmap. by exists (n, ds). }
  lia.
Qed.

(** The loop always empties its queue within the fuel it is given. *)
Lemma forward_closure_total primary_agents :
  is_Some (forward_closure dependencies primary_agents).
Proof.
  apply closure_loop_total. unfold pending.
  assert (size ((list_to_set (dependencies.*1) : gset string)
                  ∖ list_to_set primary_agents) ≤ length dependencies); [|lia].
  etrans; [apply subseteq_size, subseteq_difference_l; reflexivity|].
  rewrite <- (length_fmap fst dependencies).
  generalize (dependencies.*1). intros l.
  induction l as [|x l IH].
  - rewrite list_to_set_nil, size_empty. done.
  - rewrite list_to_set_cons, length_cons, size_union_alt, size_singleton.
    assert (size ((list_to_set l : gset string) ∖ {[x]})
              ≤ size (list_to_set l : gset string)); [|lia].
    apply subseteq_size. set_solver.
Qed.

Lemma closure_inv_done primary_agents all_affected :
  closure_inv dependencies primary_agents all_affected [] →
  ∀ a, a ∈ all_affected ↔ reaches dependencies primary_agents a.
Proof.
  intros (Hprim & _ & Hsound & Hdone) a. split; [apply Hsound|].
  induction 1 as [a Ha|a n ds _ IHa Hn Hds]; [by apply Hprim|].
  destruct (Hdone a IHa) as [Hq|Hcl]; [by apply elem_of_nil in Hq|].
  by apply (Hcl n ds).
Qed.

Lemma closure_inv_step primary_agents all_affected current_agent rest new :
  closure_inv dependencies primary_agents all_affected (current_agent :: rest) →
  (∀ n, n ∈ new →
     ∃ deps, (n, deps) ∈ dependencies ∧ current_agent ∈ deps) →
  (∀ n deps, (n, deps) ∈ dependencies → current_agent ∈ deps →
     n ∈ (list_to_set new ∪ all_affected : gset string)) →
  closure_inv dependencies primary_agents
    (list_to_set new ∪ all_affected) (rest ++ new).
Proof.
  intros (Hprim & Hqueue & Hsound & Hdone) Hnew Hall. split_and!.
  - intros a Ha. apply Hprim in Ha. set_solver.
  - intros a [Ha|Ha]%elem_of_app.
    + apply elem_of_union. right. apply Hqueue. by right.
    + apply elem_of_union. left. by apply elem_of_list_to_set.
  - intros a [Ha|Ha]%elem_of_union; [|by apply Hsound].
    apply elem_of_list_to_set in Ha.
    destruct (Hnew a Ha) as (ds & Hds & Hcur).
    apply (reaches_dependent _ _ current_agent a ds); [|done|done].
    apply Hsound, Hqueue. by left.
  - intros a [Ha|Ha]%elem_of_union.
    + left. apply elem_of_app. right. by apply elem_of_list_to_set in Ha.
    + destruct (Hdone a Ha) as [[->|Hq]%elem_of_cons|Hcl].
      * right. intros n ds Hn Hds. by apply (Hall n ds).
      * left. apply elem_of_app. by left.
      * right. intros n ds Hn Hds. apply elem_of_union. right.
        by apply (Hcl n ds).
Qed.

Lemma closure_loop_spec primary_agents fuel all_affected to_process result :
  closure_inv dependencies primary_agents all_affected to_process →
  closure_loop dependencies fuel all_affected to_process = Some result →
  ∀ a, a ∈ result ↔ reaches dependencies primary_agents a.
Proof.
  revert all_affected to_process.
  induction fuel as [|fuel IH]; intros aff [|cur rest]; simpl;
    intros Hinv Hrun; try discriminate;
    try (injection Hrun as <-; by apply closure_inv_done).
  destruct (scan_dependents_spec cur dependencies aff rest)
    as (new & Heq & Hnd & Hnew & Hall).
  rewrite Heq in Hrun. eapply IH; [|exact Hrun].
  apply (closure_inv_step _ _ cur); [done| |done].
  intros n Hn. by destruct (Hnew n Hn).
Qed.

(** [forward_closure] computes exactly the agents reached from the request. *)
Lemma forward_closure_spec primary_agents all_affected :
  forward_closure dependencies primary_agents = Some all_affected →
  ∀ a, a ∈ all_affected ↔ reaches dependencies primary_agents a.
Proof.
  apply closure_loop_spec. split_and!.
  - intros a Ha. by apply elem_of_list_to_set.
  - intros a Ha. by apply elem_of_list_to_set.
  - intros a Ha%elem_of_list_to_set. by constructor.
  - intros a Ha%elem_of_list_to_set. by left.
Qed.

End ClosureFacts.

(** What the expansion returns once the closure is known: membership,
    absence of duplicates, the canonical order, and closure under
    dependents as soon as every key of the table occurs in the order. *)
Lemma in_execution_order_spec dependencies agent_order primary_agents
    all_affected :
  forward_closure dependencies primary_agents = Some all_affected →
  NoDup agent_order →
  (∀ n deps, (n, deps) ∈ dependencies → n ∈ agent_order) →
  let expanded := in_execution_order agent_order all_affected in
  (∀ a, a ∈ expanded ↔ a ∈ agent_order ∧ reaches dependencies primary_agents a)
  ∧ (∀ a n deps, a ∈ expanded → (n, deps) ∈ dependencies → a ∈ deps →
       n ∈ expanded)
  ∧ NoDup expanded
  ∧ expanded `sublist_of` agent_order.
Proof.
  intros Hrun Hnd Hkeys expanded.
  pose proof (forward_closure_spec _ _ _ Hrun) as Hspec.
  assert (∀ a, a ∈ expanded ↔
               a ∈ agent_order ∧ reaches dependencies primary_agents a) as Hmem.
  { intros a. unfold expanded, in_execution_order.
    rewrite list_elem_of_filter, Hspec. tauto. }
  split_and!; [done| | |].
  - intros a n deps [_ Ha]%Hmem Hn Hdeps. apply Hmem. split.
    + by apply (Hkeys n deps).
    + by apply (reaches_dependent _ _ a n deps).
  - by apply NoDup_filter.
  - apply sublist_filter.
Qed.

(** ** Closure expansion (C1, C3, C4) *)

(** C1. An edit request for exactly one task is returned unchanged by the
    closure expansion: by [EditPipeline._expand_with_dependencies] for every
    dependency table and every session (generated or not), and by
    [MasterAgent.get_sub_agents_to_rerun] under the action "edit". *)
Theorem C1_single_task_edit_not_expanded (a : string) :
  (∀ dependencies this,
     EditPipeline._expand_with_dependencies_on dependencies this [a] = Some [a])
  ∧ (∀ this, EditPipeline._expand_with_dependencies this [a] = Some [a])
  ∧ (∀ this,
       EditPipeline.get_agent_sequence
         {| EditPipeline.session := this; EditPipeline.agents_to_update := [a] |}
       = Some [a])
  ∧ (∀ settings,
       MasterAgent.get_sub_agents_to_rerun
         {| MasterAgent.action := "edit";
            MasterAgent.agents_to_rerun := [a];
            MasterAgent.extracted_settings := settings |}
       = Some [a]).
Proof.
  split_and!; reflexivity.
Qed.


Lemma master_agent_order_NoDup : NoDup MasterAgent.agent_order.
Proof. apply (bool_decide_unpack _). by vm_compute. Qed.


Lemma master_dependencies_in_order n deps :
  (n, deps) ∈ MasterAgent.agent_dependencies → n ∈ MasterAgent.agent_order.
Proof.
  unfold MasterAgent.agent_dependencies, MasterAgent.agent_order.
  rewrite !elem_of_cons, elem_of_nil. intros H.
  repeat (destruct H as [H|H]; [simplify_eq; set_solver|]). done.
Qed.

Lemma master_expand_closed primary_agents :
  ∃ expanded,
    MasterAgent._expand_with_dependencies primary_agents = Some expanded
    ∧ closed_expansion MasterAgent.agent_dependencies MasterAgent.agent_order
        primary_agents expanded.
Proof.
  unfold MasterAgent._expand_with_dependencies.
  destruct (forward_closure_total MasterAgent.agent_dependencies primary_agents)
    as [aff Haff].
  rewrite Haff. simpl. eexists. split; [done|].
  apply in_execution_order_spec; [done| |].
  - apply master_agent_order_NoDup.
  - apply master_dependencies_in_order.
Qed.



(** On a generated document the edit pipeline returns the single requested
    task [business_analyst] alone, not the four tasks of C4. *)
Lemma C4_single_request_stays_single :
  EditPipeline._expand_with_dependencies
    {| EditPipeline.session := generated_session;
       EditPipeline.agents_to_update := ["business_analyst"] |}
    ["business_analyst"]
  = Some ["business_analyst"]
  ∧ EditPipeline._expand_with_dependencies
      {| EditPipeline.session := generated_session;
         EditPipeline.agents_to_update := ["business_analyst"] |}
      ["business_analyst"]
    ≠ Some ["business_analyst"; "technical_architect"; "project_manager";
            "resource_allocation"]
  ∧ MasterAgent.get_sub_agents_to_rerun
      {| MasterAgent.action := "edit";
         MasterAgent.agents_to_rerun := ["business_analyst"];
         MasterAgent.extracted_settings := no_settings |}
    = Some ["business_analyst"].
Proof. split_and!; [reflexivity|discriminate|reflexivity]. Qed.

(** C4 (amended). The four tasks [business_analyst, technical_architect,
    project_manager, resource_allocation], in that order, are what the
    unguarded closure of the master agent returns for [business_analyst]
    (and so [get_sub_agents_to_rerun] when the action is
    "generate_proposal"); the edit pipeline, whatever the session, and
    [get_sub_agents_to_rerun] under "edit" return the single task
    unchanged; and in the table of the edit pipeline [technical_architect]
    is not a dependent of [business_analyst]. *)
Theorem C4_business_analyst_expansion :
  MasterAgent._expand_with_dependencies ["business_analyst"]
  = Some ["business_analyst"; "technical_architect"; "project_manager";
          "resource_allocation"]
  ∧ (∀ settings,
       MasterAgent.get_sub_agents_to_rerun
         {| MasterAgent.action := "generate_proposal";
            MasterAgent.agents_to_rerun := ["business_analyst"];
            MasterAgent.extracted_settings := settings |}
       = Some ["business_analyst"; "technical_architect"; "project_manager";
               "resource_allocation"])
  ∧ (∀ this,
       EditPipeline._expand_with_dependencies this ["business_analyst"]
       = Some ["business_analyst"])
  ∧ (∀ settings,
       MasterAgent.get_sub_agents_to_rerun
         {| MasterAgent.action := "edit";
            MasterAgent.agents_to_rerun := ["business_analyst"];
            MasterAgent.extracted_settings := settings |}
       = Some ["business_analyst"])
  ∧ in_execution_order EditPipeline.agent_order
      <$> forward_closure EditPipeline.get_agent_dependencies ["business_analyst"]
    = Some ["business_analyst"; "project_manager"; "resource_allocation"].
Proof.
  split_and!; try reflexivity; by vm_compute.
Qed.

(** ** Constraint-driven task injection (C7) *)

Section Injection.

Import MasterAgent.






End Injection.


Section InjectionClaims.

Import MasterAgent.



End InjectionClaims.




(** ** Rate normalization (C8) *)




(** ** The compile task (C6, C10) *)

Section Compile.

Import FinalCompilation.






End Compile.

Section CompileClaims.

Import FinalCompilation.

Lemma present_not_missing (state : State) key s :
  state !! key = Some (VStr s) → strip s ≠ "" → is_missing state key = false.
Proof.
  intros Hs Hne. unfold is_missing, get_or. rewrite Hs. simpl.
  apply orb_false_iff. split.
  - destruct s; [done|reflexivity].
  - by apply String.eqb_neq.
Qed.

Lemma final_compilation_completed (state : State) :
  (∀ key name, (key, name) ∈ required_components →
     ∃ s, state !! key = Some (VStr s) ∧ strip s ≠ "") →
  final_compilation_agent state =
  Ok (<["current_stage" := VStr "completed"]>
        (<["final_proposal" := assembled state]> state)).
Proof.
  intros Hall.
  assert (∀ key name, (key, name) ∈ required_components →
            is_missing state key = false ∧
            ∃ s, get_or state key (VStr "") = VStr s) as Hok.
  { intros key name Hin. destruct (Hall key name Hin) as (s & Hs & Hne).
    split; [by apply (present_not_missing _ _ s)|].
    exists s. unfold get_or. by rewrite Hs. }
  unfold required_components in Hok.
  destruct (Hok "refined_scope" "refined scope") as [M1 [s1 G1]]; [set_solver|].
  destruct (Hok "business_analysis" "business analysis") as [M2 [s2 G2]];
    [set_solver|].
  destruct (Hok "technical_spec" "technical specification") as [M3 [s3 G3]];
    [set_solver|].
  destruct (Hok "project_plan" "project plan") as [M4 [s4 G4]]; [set_solver|].
  destruct (Hok "resource_plan" "resource plan") as [M5 [s5 G5]]; [set_solver|].
  unfold final_compilation_agent, missing_components, required_components.
  rewrite !filter_cons, filter_nil. simpl.
  rewrite M1, M2, M3, M4, M5. simpl.
  unfold assembled. rewrite G1, G2, G3, G4, G5. reflexivity.
Qed.

End CompileClaims.





(** ** Static level planning and execution of the full pipeline (C5) *)

Section FullPipelineFacts.

Import FullProposalPipeline.

Lemma py_in_list a (l : list value) :
  py_in a (VList l) = Ok (bool_decide (a ∈ string_items l)).
Proof.
  simpl. f_equal. induction l as [|x l IH]; simpl; [done|].
  rewrite IH. destruct x; simpl; try done.
  - destruct (String.eqb_spec a s) as [->|Hne]; simpl.
    + rewrite (bool_decide_eq_true_2 (s ∈ s :: string_items l)); [done|by left].
    + case_bool_decide as H1; case_bool_decide as H2; try done.
      * exfalso. apply H2. by right.
      * apply elem_of_cons in H2 as [?|?]; [congruence|done].
Qed.

Lemma keep_enabled_list (l : list value) agent_sequence :
  keep_enabled (VList l) agent_sequence
  = Ok (filter (λ a, a ∈ string_items l) agent_sequence).
Proof.
  induction agent_sequence as [|a rest IH];
    [done|].
  cbn [keep_enabled]. rewrite py_in_list, IH. simpl.
  rewrite filter_cons. by case_bool_decide; case_decide.
Qed.

Lemma filter_groups_spec agent_sequence parallel_groups :
  filter_groups agent_sequence parallel_groups
  = filter (λ g, g ≠ [])
      (map (filter (λ a, a ∈ agent_sequence)) parallel_groups).
Proof.
  induction parallel_groups as [|g rest IH]; [done|].
  simpl. rewrite filter_cons, IH.
  destruct (filter _ g) eqn:Hg; by case_decide.
Qed.

Lemma filter_restrict {A} (P Q : A → Prop) `{∀ x, Decision (P x)}
    `{∀ x, Decision (Q x)} (l : list A) :
  (∀ x, x ∈ l → (P x ↔ Q x)) → filter P l = filter Q l.
Proof.
  induction l as [|x l IH]; intros Hext; [done|].
  rewrite !filter_cons, IH by (intros y Hy; apply Hext; by right).
  destruct (Hext x ltac:(by left)). by repeat case_decide; try tauto.
Qed.

(** The batches submitted by the loop over the groups: the non-empty
    restrictions of the groups, in order, up to the first failing group. *)
Lemma run_groups_batches rt agent_sequence parallel_groups state sess submitted :
  let r := run_groups rt agent_sequence parallel_groups state sess submitted in
  ∃ ran,
    batches r = submitted ++ ran
    ∧ ran `prefix_of` filter_groups agent_sequence parallel_groups
    ∧ (run_outcome r = Returns →
         ran = filter_groups agent_sequence parallel_groups)
    ∧ run_outcome r ≠ Diverges.
Proof.
  revert state sess submitted.
  induction parallel_groups as [|g rest IH]; intros state sess submitted; simpl.
  - exists []. by rewrite app_nil_r.
  - destruct (filter _ g) as [|a g'] eqn:Hg; [apply IH|].
    destruct (FullProposalPipeline.merge_completed _ _ _) as [[[e|] state'] sess'].
    + simpl. exists [a :: g']. split_and!; [done| |done|done].
      by apply prefix_cons, prefix_nil.
    + destruct (IH state' sess' (submitted ++ [a :: g']))
        as (ran & Hb & Hp & Hr & Hd).
      exists ((a :: g') :: ran). split_and!; [|by apply prefix_cons| |done].
      * by rewrite Hb, <- app_assoc.
      * intros Hret. by rewrite (Hr Hret).
Qed.

Lemma filter_groups_idemp agent_sequence parallel_groups :
  filter_groups agent_sequence (filter_groups agent_sequence parallel_groups)
  = filter_groups agent_sequence parallel_groups.
Proof.
  induction parallel_groups as [|g rest IH]; [done|].
  simpl. destruct (filter _ g) as [|a g'] eqn:Hg; [done|].
  simpl. rewrite <- Hg, list_filter_filter.
  rewrite (filter_restrict _ (λ x, x ∈ agent_sequence)) by tauto.
  rewrite Hg. by rewrite IH.
Qed.

(** The batches of a run of the full pipeline are the planned groups, up to
    the first failure. *)
Lemma execute_batches rt this state :
  let r := execute rt this state in
  match planned_groups state with
  | Ok groups =>
      batches r `prefix_of` groups
      ∧ (run_outcome r = Returns → batches r = groups)
  | Raise e => batches r = [] ∧ run_outcome r = Raises e
  end.
Proof.
  unfold execute, planned_groups, validate_prerequisites,
    BasePipeline.validate_prerequisites. simpl.
  destruct (enabled_sequence state) as [agent_sequence|e]; simpl; [|done].
  destruct (run_groups_batches rt agent_sequence
              (filter_groups agent_sequence get_parallel_groups)
              state (session this) []) as (ran & Hb & Hp & Hr & _).
  rewrite filter_groups_idemp in Hp, Hr. simpl in Hb. rewrite Hb. done.
Qed.

End FullPipelineFacts.

(** C5. The static plan of the full pipeline has exactly three levels: the
    title alone, the five content tasks, the compilation alone.  With a
    non-empty list of enabled agents in the state, every task that is not
    enabled is removed from its level and a level left empty is dropped,
    the order of the levels being kept; without such a list the three
    levels are run as they are.  The batches a run submits are these
    groups, in this order (all of them when the run returns). *)
Theorem C5_static_level_planning :
  FullProposalPipeline.get_parallel_groups
  = [ ["title"];
      [ "scope_refinement"; "business_analyst"; "technical_architect";
        "project_manager"; "resource_allocation" ];
      ["final_compilation"] ]
  ∧ (∀ (state : State) (e : value) (es : list value),
       FullProposalPipeline.planned_groups
         (<["enabled_agents" := VList (e :: es)]> state)
       = Ok (filter (λ g, g ≠ [])
               (map (filter (λ a, a ∈ string_items (e :: es)))
                    FullProposalPipeline.get_parallel_groups)))
  ∧ (∀ state : State,
       FullProposalPipeline.planned_groups (delete "enabled_agents" state)
       = Ok FullProposalPipeline.get_parallel_groups
       ∧ FullProposalPipeline.planned_groups
           (<["enabled_agents" := VList []]> state)
         = Ok FullProposalPipeline.get_parallel_groups)
  ∧ (∀ rt this state,
       let r := FullProposalPipeline.execute rt this state in
       match FullProposalPipeline.planned_groups state with
       | Ok groups =>
           batches r `prefix_of` groups
           ∧ (run_outcome r = Returns → batches r = groups)
       | Raise e => batches r = [] ∧ run_outcome r = Raises e
       end).
Proof.
  split_and!.
  - reflexivity.
  - intros state e es.
    unfold FullProposalPipeline.planned_groups,
      FullProposalPipeline.enabled_sequence.
    rewrite lookup_insert_eq. cbn [truthy].
    rewrite keep_enabled_list.
    generalize (string_items (e :: es)). intros enabled.
    unfold mbind, result_bind. f_equal.
    rewrite filter_groups_spec. f_equal.
    unfold FullProposalPipeline.get_parallel_groups. cbn [map].
    repeat f_equal; apply filter_restrict; intros x Hx;
      rewrite list_elem_of_filter;
      unfold FullProposalPipeline.get_agent_sequence; set_solver.
  - intros state. split.
    + unfold FullProposalPipeline.planned_groups,
        FullProposalPipeline.enabled_sequence.
      rewrite lookup_delete_eq. reflexivity.
    + unfold FullProposalPipeline.planned_groups,
        FullProposalPipeline.enabled_sequence.
      rewrite lookup_insert_eq. reflexivity.
  - apply execute_batches.
Qed.

(** ** Prerequisites (C9) *)




Lemma C5_static_level_planning_witness :
  let state : State :=
    <["enabled_agents" := VList [VStr "title"; VStr "final_compilation"]]> ∅ in
  let r := FullProposalPipeline.execute echo_runtime
             {| FullProposalPipeline.session := fresh_session |} state in
  run_outcome r = Returns
  ∧ batches r = [["title"]; ["final_compilation"]].
Proof.
  pose proof (proj2 (proj2 (proj2 C5_static_level_planning)) echo_runtime
                {| FullProposalPipeline.session := fresh_session |}
                (<["enabled_agents" := VList [VStr "title"; VStr "final_compilation"]]> ∅))
    as Hrun.
  assert (FullProposalPipeline.planned_groups
            (<["enabled_agents" := VList [VStr "title"; VStr "final_compilation"]]> ∅)
          = Ok [["title"]; ["final_compilation"]]) as Hplan
    by (vm_compute; reflexivity).
  rewrite Hplan in Hrun. destruct Hrun as [_ Hall].
  assert (run_outcome
            (FullProposalPipeline.execute echo_runtime
               {| FullProposalPipeline.session := fresh_session |}
               (<["enabled_agents" := VList [VStr "title"; VStr "final_compilation"]]> ∅))
          = Returns) as Hret by (vm_compute; reflexivity).
  split; [exact Hret|exact (Hall Hret)].
Defined.

(** ** Dependency levels and the execution of the edit pipeline (C2) *)

Section Levels.

Variable dependencies : list (string * list string).
Variable agent_sequence : list string.

Lemma get_level_unfold fuel agent_name :
  EditPipeline.get_level (S fuel) dependencies agent_sequence agent_name
  = match default [] (dict_get agent_name dependencies) with
    | [] => Some 0
    | _ =>
        dep_levels ← mapM (EditPipeline.get_level fuel dependencies agent_sequence)
                          (in_subset_deps dependencies agent_sequence agent_name);
        Some (match dep_levels with
              | [] => 0
              | _ => max_list dep_levels + 1
              end)
    end.
Proof. unfold in_subset_deps. simpl. by destruct (default [] _). Qed.

(** More fuel does not change a level. *)
Lemma get_level_mono fuel agent_name n :
  EditPipeline.get_level fuel dependencies agent_sequence agent_name = Some n →
  EditPipeline.get_level (S fuel) dependencies agent_sequence agent_name = Some n.
Proof.
  revert agent_name n. induction fuel as [|fuel IH]; intros a n; [done|].
  rewrite (get_level_unfold (S fuel)), (get_level_unfold fuel).
  destruct (default [] (dict_get a dependencies)); [done|].
  destruct (mapM (EditPipeline.get_level fuel _ _) _) as [levels|] eqn:Hm;
    [|done].
  intros Hn. apply mapM_Some in Hm.
  assert (mapM (EditPipeline.get_level (S fuel) dependencies agent_sequence)
               (in_subset_deps dependencies agent_sequence a)
          = Some levels) as ->; [|done].
  apply mapM_Some. eapply Forall2_impl; [exact Hm|]. intros x y. apply IH.
Qed.

(** One more unit of fuel than the dependencies need is enough. *)
Lemma get_level_step fuel agent_name :
  (∀ dep, dep ∈ default [] (dict_get agent_name dependencies) →
          is_Some (EditPipeline.get_level fuel dependencies agent_sequence dep)) →
  is_Some (EditPipeline.get_level (S fuel) dependencies agent_sequence agent_name).
Proof.
  intros Hdeps. rewrite get_level_unfold.
  destruct (default [] (dict_get agent_name dependencies)) eqn:Hd; [by eexists|].
  destruct (mapM_is_Some_2
              (EditPipeline.get_level fuel dependencies agent_sequence)
              (in_subset_deps dependencies agent_sequence agent_name))
    as [levels ->]; [|by eexists].
  apply Forall_forall. intros dep Hdep. apply Hdeps.
  unfold in_subset_deps in Hdep. rewrite Hd in Hdep.
  by apply list_elem_of_filter in Hdep as [_ ?].
Qed.

(** If [fuel] is enough for every agent, the levels at [S fuel] satisfy the
    recurrence: 0 without a dependency in the sequence, otherwise one more
    than the greatest level of those dependencies. *)
Lemma get_level_recurrence fuel :
  (∀ a, is_Some (EditPipeline.get_level fuel dependencies agent_sequence a)) →
  let level a :=
    default 0 (EditPipeline.get_level (S fuel) dependencies agent_sequence a) in
  ∀ a,
    EditPipeline.get_level (S fuel) dependencies agent_sequence a = Some (level a)
    ∧ (in_subset_deps dependencies agent_sequence a = [] → level a = 0)
    ∧ (in_subset_deps dependencies agent_sequence a ≠ [] →
         level a
         = max_list (level <$> in_subset_deps dependencies agent_sequence a) + 1).
Proof.
  intros Htotal level a.
  assert (∀ x, EditPipeline.get_level fuel dependencies agent_sequence x
               = Some (level x)) as Hlow.
  { intros x. destruct (Htotal x) as [n Hn]. unfold level.
    by rewrite (get_level_mono _ _ _ Hn). }
  assert (EditPipeline.get_level (S fuel) dependencies agent_sequence a
          = Some (level a)) as Hhigh.
  { unfold level. destruct (Htotal a) as [n Hn].
    by rewrite (get_level_mono _ _ _ Hn). }
  split; [done|].
  assert (mapM (EditPipeline.get_level fuel dependencies agent_sequence)
               (in_subset_deps dependencies agent_sequence a)
          = Some (level <$> in_subset_deps dependencies agent_sequence a)) as Hm.
  { apply mapM_Some, Forall2_fmap_r, Forall_Forall2_diag, Forall_forall.
    intros x _. apply Hlow. }
  rewrite get_level_unfold, Hm in Hhigh. simpl in Hhigh.
  split.
  - intros Hnil. rewrite Hnil in Hhigh. simpl in Hhigh.
    destruct (default [] (dict_get a dependencies)); congruence.
  - intros Hne.
    destruct (default [] (dict_get a dependencies)) eqn:Hd.
    { exfalso. apply Hne. unfold in_subset_deps. by rewrite Hd. }
    destruct (in_subset_deps dependencies agent_sequence a) as [|d ds]; [done|].
    simpl in Hhigh. simpl. congruence.
Qed.

End Levels.

Section EditLevels.

Import EditPipeline.

Variable agent_sequence : list string.

Abbreviation level_at fuel :=
  (get_level fuel get_agent_dependencies agent_sequence).

Lemma dict_get_edit_dependencies agent_name :
  default [] (dict_get agent_name get_agent_dependencies) = []
  ∨ agent_name = "business_analyst"
    ∧ default [] (dict_get agent_name get_agent_dependencies)
      = ["scope_refinement"]
  ∨ agent_name = "technical_architect"
    ∧ default [] (dict_get agent_name get_agent_dependencies)
      = ["scope_refinement"]
  ∨ agent_name = "project_manager"
    ∧ default [] (dict_get agent_name get_agent_dependencies)
      = ["scope_refinement"; "business_analyst"; "technical_architect"]
  ∨ agent_name = "resource_allocation"
    ∧ default [] (dict_get agent_name get_agent_dependencies)
      = ["scope_refinement"; "business_analyst"; "technical_architect";
         "project_manager"].
Proof.
  unfold get_agent_dependencies. simpl.
  repeat match goal with
         | |- context [String.eqb agent_name ?s] =>
             destruct (String.eqb_spec agent_name s) as [->|_]
         end; simpl; tauto.
Qed.

Lemma level_scope_refinement fuel :
  is_Some (level_at (S fuel) "scope_refinement").
Proof. by eexists. Qed.

Lemma level_business_analyst fuel :
  is_Some (level_at (S (S fuel)) "business_analyst").
Proof.
  apply get_level_step. intros dep Hdep. simpl in Hdep.
  apply list_elem_of_singleton in Hdep as ->. apply level_scope_refinement.
Qed.

Lemma level_technical_architect fuel :
  is_Some (level_at (S (S fuel)) "technical_architect").
Proof.
  apply get_level_step. intros dep Hdep. simpl in Hdep.
  apply list_elem_of_singleton in Hdep as ->. apply level_scope_refinement.
Qed.

Lemma level_project_manager fuel :
  is_Some (level_at (S (S (S fuel))) "project_manager").
Proof.
  apply get_level_step. intros dep Hdep. simpl in Hdep.
  rewrite !elem_of_cons, elem_of_nil in Hdep.
  destruct Hdep as [->|[->|[->|[]]]].
  - apply level_scope_refinement.
  - apply level_business_analyst.
  - apply level_technical_architect.
Qed.

Lemma level_resource_allocation fuel :
  is_Some (level_at (S (S (S (S fuel)))) "resource_allocation").
Proof.
  apply get_level_step. intros dep Hdep. simpl in Hdep.
  rewrite !elem_of_cons, elem_of_nil in Hdep.
  destruct Hdep as [->|[->|[->|[->|[]]]]].
  - apply level_scope_refinement.
  - apply level_business_analyst.
  - apply level_technical_architect.
  - apply level_project_manager.
Qed.

(** With the table of the edit pipeline every level is found within five
    nested calls. *)
Lemma edit_levels_total fuel agent_name :
  is_Some (level_at (4 + S fuel) agent_name).
Proof.
  destruct (dict_get_edit_dependencies agent_name)
    as [Hnone|[[-> _]|[[-> _]|[[-> _]|[-> _]]]]].
  - change (4 + S fuel) with (S (4 + fuel)).
    rewrite get_level_unfold, Hnone. by eexists.
  - apply level_business_analyst.
  - apply level_technical_architect.
  - apply level_project_manager.
  - apply level_resource_allocation.
Qed.

End EditLevels.

Section Grouping.

Import EditPipeline.

Variable level : string → nat.

(** The dictionary [groups] after the grouping loop: under every level the
    agents of that level, in the order of the sequence. *)
Lemma group_agents_lookup (agent_sequence : list string) (k : nat) :
  group_agents (zip agent_sequence (level <$> agent_sequence)) !! k
  = match filter (λ a, level a = k) agent_sequence with
    | [] => None
    | g => Some g
    end.
Proof.
  induction agent_sequence as [|a l IH] using rev_ind; [done|].
  rewrite fmap_app. simpl.
  rewrite zip_with_app by (by rewrite length_fmap).
  unfold group_agents in *. rewrite foldl_app. simpl.
  set (groups := foldl _ ∅ (zip l (level <$> l))) in *.
  rewrite filter_app, filter_cons, filter_nil.
  destruct (decide (level a = k)) as [<-|Hne].
  - rewrite lookup_insert_eq, IH.
    destruct (filter _ l) as [|x g]; simpl; [done|].
    by destruct (g ++ [a]) eqn:Hg; [destruct g|].
  - rewrite lookup_insert_ne by done. by rewrite IH, app_nil_r.
Qed.

Lemma groups_in_level_order_spec (agent_sequence : list string) :
  let groups := group_agents (zip agent_sequence (level <$> agent_sequence)) in
  let levels := merge_sort Nat.le (elements (dom groups)) in
  groups_in_level_order groups
  = map (λ k, filter (λ a, level a = k) agent_sequence) levels
  ∧ Sorted Nat.le levels
  ∧ NoDup levels
  ∧ (∀ k, k ∈ levels ↔ ∃ a, a ∈ agent_sequence ∧ level a = k).
Proof.
  intros groups levels. split_and!.
  - unfold groups_in_level_order. fold levels. apply map_ext. intros k.
    unfold groups. rewrite group_agents_lookup.
    by destruct (filter _ agent_sequence).
  - apply (Sorted_merge_sort Nat.le).
  - unfold levels. rewrite merge_sort_Permutation. apply NoDup_elements.
  - intros k. unfold levels.
    rewrite merge_sort_Permutation, elem_of_elements, elem_of_dom.
    unfold groups. rewrite group_agents_lookup.
    destruct (filter _ agent_sequence) as [|a g] eqn:Hf.
    + split; [by intros [? ?]|]. intros (a & Ha & Hk).
      assert (a ∈ filter (λ a, level a = k) agent_sequence) as Hin
        by (by apply list_elem_of_filter).
      rewrite Hf in Hin. by apply elem_of_nil in Hin.
    + split; [|by eexists]. intros _. exists a.
      assert (a ∈ filter (λ a, level a = k) agent_sequence) as Hin
        by (rewrite Hf; by left).
      apply list_elem_of_filter in Hin. tauto.
Qed.

End Grouping.


(** The expansion of the edit pipeline always returns. *)
Lemma edit_expand_total this primary_agents :
  is_Some (EditPipeline._expand_with_dependencies this primary_agents).
Proof.
  unfold EditPipeline._expand_with_dependencies,
    EditPipeline._expand_with_dependencies_on.
  case_decide; [by eexists|].
  destruct (negb _); [by eexists|].
  destruct (forward_closure_total EditPipeline.get_agent_dependencies
              primary_agents) as [aff ->].
  by eexists.
Qed.

Lemma edit_group_levels (this : EditPipeline.self) (agent_sequence : list string) :
  is_proposal_generated (EditPipeline.session this) = true →
  ∃ (level : string → nat) (levels : list nat),
    (∀ a, in_subset_deps EditPipeline.get_agent_dependencies agent_sequence a = []
          → level a = 0)
    ∧ (∀ a, in_subset_deps EditPipeline.get_agent_dependencies agent_sequence a ≠ []
            → level a
              = max_list (level <$> in_subset_deps
                                      EditPipeline.get_agent_dependencies
                                      agent_sequence a) + 1)
    ∧ EditPipeline._group_by_dependency_level this agent_sequence
      = Some (map (λ k, filter (λ a, level a = k) agent_sequence) levels)
    ∧ Sorted Nat.le levels
    ∧ NoDup levels
    ∧ (∀ k, k ∈ levels ↔ ∃ a, a ∈ agent_sequence ∧ level a = k).
Proof.
  intros Hgen.
  pose proof (get_level_recurrence EditPipeline.get_agent_dependencies
                agent_sequence 5 (edit_levels_total agent_sequence 0)) as Hrec.
  simpl in Hrec.
  set (level := λ a, default 0 (EditPipeline.get_level 6
                 EditPipeline.get_agent_dependencies agent_sequence a)) in *.
  destruct (groups_in_level_order_spec level agent_sequence)
    as (Hgroups & Hsorted & Hnodup & Hmem).
  eexists level, _. split_and!;
    [intros a; apply (Hrec a)|intros a; apply (Hrec a)| |
     exact Hsorted|exact Hnodup|exact Hmem].
  unfold EditPipeline._group_by_dependency_level,
    EditPipeline._group_by_dependency_level_on.
  rewrite Hgen. cbn [negb andb].
  change (S (length EditPipeline.get_agent_dependencies)) with 6.
  assert (mapM (EditPipeline.get_level 6 EditPipeline.get_agent_dependencies
                  agent_sequence) agent_sequence
          = Some (level <$> agent_sequence)) as ->.
  { apply mapM_Some, Forall2_fmap_r, Forall_Forall2_diag, Forall_forall.
    intros x _. apply (Hrec x). }
  cbn [mbind option_bind]. by rewrite Hgroups.
Qed.



(** * Further properties of the orchestration code *)

(** ** Closure expansion: idempotence, monotonicity, no additions *)

Section ExpansionFacts.

Variable dependencies : list (string * list string).
Variable agent_order : list string.

Lemma reaches_mono primary_agents primary_agents' a :
  (∀ x, x ∈ primary_agents → reaches dependencies primary_agents' x) →
  reaches dependencies primary_agents a →
  reaches dependencies primary_agents' a.
Proof.
  intros Hsub. induction 1 as [a Ha|a n ds _ IH Hn Hds]; [by apply Hsub|].
  by apply (reaches_dependent _ _ a n ds).
Qed.

(** Expanding an expansion changes nothing. *)
Lemma in_execution_order_idemp primary_agents all_affected all_affected' :
  forward_closure dependencies primary_agents = Some all_affected →
  forward_closure dependencies (in_execution_order agent_order all_affected)
  = Some all_affected' →
  in_execution_order agent_order all_affected'
  = in_execution_order agent_order all_affected.
Proof.
  intros Hfirst Hsecond.
  pose proof (forward_closure_spec _ _ _ Hfirst) as Hspec.
  pose proof (forward_closure_spec _ _ _ Hsecond) as Hspec'.
  unfold in_execution_order. apply filter_restrict.
  intros a Ha. rewrite Hspec, Hspec'. split.
  - apply reaches_mono. intros x Hx. unfold in_execution_order in Hx.
    apply list_elem_of_filter in Hx as [Hx _]. by apply Hspec.
  - intros Hr. apply reaches_primary. unfold in_execution_order.
    apply list_elem_of_filter. split; [by apply Hspec|done].
Qed.

Lemma filter_elem_of_filter (P : string → Prop) `{∀ x, Decision (P x)}
    (l : list string) :
  filter (λ a, a ∈ filter P l) l = filter P l.
Proof.
  apply filter_restrict. intros a Ha. rewrite list_elem_of_filter. tauto.
Qed.

End ExpansionFacts.

Lemma expansion_again (this : EditPipeline.self)
    (primary_agents : list string) :
  (expanded ← MasterAgent._expand_with_dependencies primary_agents;
   MasterAgent._expand_with_dependencies expanded)
  = MasterAgent._expand_with_dependencies primary_agents
  ∧ (expanded ← EditPipeline._expand_with_dependencies this primary_agents;
     EditPipeline._expand_with_dependencies this expanded)
    = EditPipeline._expand_with_dependencies this primary_agents.
Proof.
  split.
  - unfold MasterAgent._expand_with_dependencies.
    destruct (forward_closure_total MasterAgent.agent_dependencies
                primary_agents) as [aff Haff].
    rewrite Haff. cbn [mbind option_bind].
    destruct (forward_closure_total MasterAgent.agent_dependencies
                (in_execution_order MasterAgent.agent_order aff))
      as [aff' Haff'].
    rewrite Haff'. cbn [mbind option_bind]. f_equal.
    by eapply in_execution_order_idemp.
  - unfold EditPipeline._expand_with_dependencies,
      EditPipeline._expand_with_dependencies_on.
    case_decide as Hone; [cbn [mbind option_bind]; by rewrite decide_True|].
    destruct (is_proposal_generated (EditPipeline.session this)) eqn:Hgen;
      cbn [negb].
    + destruct (forward_closure_total EditPipeline.get_agent_dependencies
                  primary_agents) as [aff Haff].
      rewrite Haff. cbn [mbind option_bind].
      case_decide as Hone'; [done|].
      destruct (forward_closure_total EditPipeline.get_agent_dependencies
                  (in_execution_order EditPipeline.agent_order aff))
        as [aff' Haff'].
      rewrite Haff'. cbn [mbind option_bind]. f_equal.
      by eapply in_execution_order_idemp.
    + cbn [mbind option_bind].
      destruct (filter (λ a, a ∈ primary_agents) EditPipeline.agent_order)
        as [|x l] eqn:Hf.
      * rewrite decide_False by done. by rewrite Hf.
      * case_decide as Hone'; [done|].
        rewrite <- Hf, filter_elem_of_filter. by rewrite Hf.
Qed.

(** X1. The closure expansion is idempotent: it returns a list, and
    expanding that list returns it again, for the master agent and for the
    edit pipeline in every session. *)
Theorem expansion_idempotent (this : EditPipeline.self)
    (primary_agents : list string) :
  (∃ expanded,
     MasterAgent._expand_with_dependencies primary_agents = Some expanded
     ∧ MasterAgent._expand_with_dependencies expanded = Some expanded)
  ∧ (∃ expanded,
       EditPipeline._expand_with_dependencies this primary_agents
       = Some expanded
       ∧ EditPipeline._expand_with_dependencies this expanded = Some expanded).
Proof.
  destruct (expansion_again this primary_agents) as [Hmaster Hedit].
  destruct (master_expand_closed primary_agents) as (expanded & He & _).
  destruct (edit_expand_total this primary_agents) as [expanded' He'].
  rewrite He in Hmaster. rewrite He' in Hedit. simpl in Hmaster, Hedit.
  split; [by exists expanded|by exists expanded'].
Qed.

(** X2. The expansion of the master agent is monotone in the request and
    keeps every requested agent of its canonical order. *)
Theorem expansion_monotone (primary_agents primary_agents' : list string) :
  (∀ a, a ∈ primary_agents → a ∈ primary_agents') →
  ∃ expanded expanded',
    MasterAgent._expand_with_dependencies primary_agents = Some expanded
    ∧ MasterAgent._expand_with_dependencies primary_agents' = Some expanded'
    ∧ (∀ a, a ∈ expanded → a ∈ expanded')
    ∧ (∀ a, a ∈ primary_agents → a ∈ MasterAgent.agent_order → a ∈ expanded).
Proof.
  intros Hsub.
  destruct (master_expand_closed primary_agents) as (e & He & Hm & _).
  destruct (master_expand_closed primary_agents') as (e' & He' & Hm' & _).
  exists e, e'. split_and!; [done|done| |].
  - intros a [Ha Hr]%Hm. apply Hm'. split; [done|].
    eapply reaches_mono; [|exact Hr].
    intros x Hx. by apply reaches_primary, Hsub.
  - intros a Ha Hord. apply Hm. split; [done|by apply reaches_primary].
Qed.

Lemma expansion_monotone_witness :
  ∃ expanded expanded',
    MasterAgent._expand_with_dependencies ["project_manager"] = Some expanded
    ∧ MasterAgent._expand_with_dependencies
        ["technical_architect"; "project_manager"] = Some expanded'
    ∧ (∀ a, a ∈ expanded → a ∈ expanded')
    ∧ (∀ a, a ∈ ["project_manager"] → a ∈ MasterAgent.agent_order →
            a ∈ expanded).
Proof.
  apply (expansion_monotone ["project_manager"]
           ["technical_architect"; "project_manager"]).
  intros a Ha. by right.
Defined.

(** X3. Before the first full generation the edit pipeline never adds a
    task: whatever is requested, every task of the sequence it returns was
    requested. *)
Theorem ungenerated_edit_adds_no_task (idea : option string)
    (title stage : string) (n : nat) (agents primary_agents : list string) :
  let this :=
    {| EditPipeline.session :=
         {| is_proposal_generated := false; initial_idea := idea;
            proposal_title := title; current_stage := stage; saves := n |};
       EditPipeline.agents_to_update := agents |} in
  ∃ agent_sequence,
    EditPipeline._expand_with_dependencies this primary_agents
    = Some agent_sequence
    ∧ ∀ a, a ∈ agent_sequence → a ∈ primary_agents.
Proof.
  intros this. unfold EditPipeline._expand_with_dependencies,
    EditPipeline._expand_with_dependencies_on.
  case_decide; [by eexists|]. simpl.
  eexists. split; [done|]. intros a Ha.
  destruct (filter (λ a0, a0 ∈ primary_agents) EditPipeline.agent_order)
    as [|x l] eqn:Hf; [done|].
  rewrite <- Hf in Ha. by apply list_elem_of_filter in Ha as [? _].
Qed.

(** ** Dependency levels: order and partition *)

Lemma StronglySorted_lookup_lt {A} (R : relation A) (l : list A) i j x y :
  StronglySorted R l → i < j → l !! i = Some x → l !! j = Some y → R x y.
Proof.
  intros Hsorted. revert i j.
  induction Hsorted as [|a l Hs IH Hall]; intros i j Hij Hi Hj; [done|].
  destruct j as [|j]; [lia|]. simpl in Hj.
  destruct i as [|i]; simpl in Hi.
  - injection Hi as ->. rewrite Forall_forall in Hall. apply Hall.
    by apply list_elem_of_lookup_2 in Hj.
  - apply (IH i j); [lia|done|done].
Qed.

Section LevelGroups.

Variable level : string → nat.

(** Grouping by level neither loses nor repeats an agent. *)
Lemma groups_by_level_Permutation (levels : list nat) (l : list string) :
  NoDup levels →
  (∀ a, a ∈ l → level a ∈ levels) →
  concat (map (λ k, filter (λ a, level a = k) l) levels) ≡ₚ l.
Proof.
  intros Hnd. induction l as [|x l IH]; intros Hin.
  - clear. by induction levels as [|k ks IHk].
  - assert (∀ ks, NoDup ks →
              concat (map (λ k, filter (λ a, level a = k) (x :: l)) ks)
              ≡ₚ (if decide (level x ∈ ks) then [x] else [])
                 ++ concat (map (λ k, filter (λ a, level a = k) l) ks)) as Hx.
    { clear. induction ks as [|k ks IHk]; intros Hnd; [done|].
      apply NoDup_cons in Hnd as [Hk Hnd]. simpl.
      rewrite filter_cons, (IHk Hnd). cbn beta.
      repeat case_decide; simpl; try done;
        try (exfalso; subst;
             match goal with
             | H : _ ∉ _ :: _ |- _ =>
                 apply H; first [by left | by right]
             | H : _ ∈ _ :: _ |- _ =>
                 apply elem_of_cons in H as [?|?]; done
             end).
      symmetry. apply Permutation_middle. }
    rewrite (Hx levels Hnd).
    rewrite decide_True by (apply Hin; by left). simpl.
    apply Permutation_skip, IH. intros a Ha. apply Hin. by right.
Qed.

End LevelGroups.

(** X4. For a generated document the groups of [_group_by_dependency_level]
    respect the dependency table: a dependency of a task that is itself in
    the sequence lies in a strictly earlier group. *)
Theorem level_groups_respect_dependencies (idea : option string)
    (title stage : string) (n : nat) (agents agent_sequence : list string) :
  let this :=
    {| EditPipeline.session :=
         {| is_proposal_generated := true; initial_idea := idea;
            proposal_title := title; current_stage := stage; saves := n |};
       EditPipeline.agents_to_update := agents |} in
  ∃ groups,
    EditPipeline._group_by_dependency_level this agent_sequence = Some groups
    ∧ ∀ i j group_i group_j a dep,
        groups !! i = Some group_i → groups !! j = Some group_j →
        a ∈ group_j → dep ∈ group_i →
        dep ∈ in_subset_deps EditPipeline.get_agent_dependencies
                agent_sequence a →
        i < j.
Proof.
  intros this.
  destruct (edit_group_levels this agent_sequence eq_refl)
    as (level & levels & _ & Hrec & -> & Hsorted & _ & _).
  eexists. split; [done|].
  intros i j gi gj a dep Hi Hj Ha Hdep Hsub.
  apply list_lookup_fmap_Some in Hi as (ki & -> & Hki).
  apply list_lookup_fmap_Some in Hj as (kj & -> & Hkj).
  apply list_elem_of_filter in Ha as [<- _].
  apply list_elem_of_filter in Hdep as [<- _].
  assert (level dep < level a) as Hlt.
  { rewrite (Hrec a) by (intros Hnil; rewrite Hnil in Hsub;
                         by apply elem_of_nil in Hsub).
    assert (level dep ≤ max_list (level <$> in_subset_deps
              EditPipeline.get_agent_dependencies agent_sequence a));
      [|lia].
    apply max_list_elem_of_le, list_elem_of_fmap. by exists dep. }
  destruct (decide (i < j)) as [|Hge]; [done|]. exfalso.
  destruct (decide (i = j)) as [->|Hne]; [simplify_eq; lia|].
  apply Sorted_StronglySorted in Hsorted; [|apply _].
  assert (level a ≤ level dep); [|lia].
  apply (StronglySorted_lookup_lt Nat.le levels j i); [done|lia|done|done].
Qed.

(** X5. The groups partition the sequence: no group is empty and their
    concatenation is a permutation of the sequence, so every task runs in
    exactly one group. *)
Theorem level_groups_partition (idea : option string)
    (title stage : string) (n : nat) (agents agent_sequence : list string) :
  let this :=
    {| EditPipeline.session :=
         {| is_proposal_generated := true; initial_idea := idea;
            proposal_title := title; current_stage := stage; saves := n |};
       EditPipeline.agents_to_update := agents |} in
  ∃ groups,
    EditPipeline._group_by_dependency_level this agent_sequence = Some groups
    ∧ concat groups ≡ₚ agent_sequence
    ∧ Forall (λ group, group ≠ []) groups.
Proof.
  intros this.
  destruct (edit_group_levels this agent_sequence eq_refl)
    as (level & levels & _ & _ & -> & _ & Hnd & Hmem).
  eexists. split; [done|]. split.
  - apply groups_by_level_Permutation; [done|].
    intros a Ha. apply Hmem. by exists a.
  - apply Forall_forall. intros g Hg.
    apply list_elem_of_fmap in Hg as (k & -> & Hk).
    apply Hmem in Hk as (a & Ha & Hlevel).
    intros Hnil.
    assert (a ∈ filter (λ a0, level a0 = k) agent_sequence) as Hin
      by (by apply list_elem_of_filter).
    rewrite Hnil in Hin. by apply elem_of_nil in Hin.
Qed.

(** ** Merging the results of a batch *)

Section MergeFacts.

Import EditPipeline.

Lemma merge_completed_app completed1 completed2 state :
  merge_completed (completed1 ++ completed2) state
  = match merge_completed completed1 state with
    | (None, state') => merge_completed completed2 state'
    | (Some e, state') => (Some e, state')
    end.
Proof.
  revert state. induction completed1 as [|[a [u|e]] l IH]; intros state;
    simpl; [done| |done]. apply IH.
Qed.

Lemma merge_succeeded updates state :
  ∃ final, merge_completed (succeeded updates) state = (None, final)
           ∧ ∀ key, (∀ a u, (a, u) ∈ updates → u !! key = None) →
                    final !! key = state !! key.
Proof.
  revert state. induction updates as [|[a u] l IH]; intros state; simpl.
  - by eexists.
  - destruct (IH (u ∪ state)) as (final & -> & Hkeep).
    eexists. split; [done|]. intros key Hnone.
    rewrite Hkeep by (intros a' u' Hin; apply (Hnone a' u'); by right).
    apply lookup_union_r. apply (Hnone a u). by left.
Qed.

End MergeFacts.

(** X6. Merging a batch in which every agent succeeded: for each key the
    value of the last update, in completion order, that holds the key wins;
    a key that no update holds keeps the value of the state. *)
Theorem merge_last_writer_wins (state : State) (key : string) :
  (∀ updates,
     (∀ a u, (a, u) ∈ updates → u !! key = None) →
     ∃ final,
       EditPipeline.merge_completed (succeeded updates) state = (None, final)
       ∧ final !! key = state !! key)
  ∧ (∀ earlier agent_name update later v,
       update !! key = Some v →
       (∀ a u, (a, u) ∈ later → u !! key = None) →
       ∃ final,
         EditPipeline.merge_completed
           (succeeded (earlier ++ (agent_name, update) :: later)) state
         = (None, final)
         ∧ final !! key = Some v).
Proof.
  split.
  - intros updates Hnone.
    destruct (merge_succeeded updates state) as (final & Hrun & Hkeep).
    exists final. split; [done|]. by apply Hkeep.
  - intros earlier a update later v Hv Hnone.
    unfold succeeded. rewrite fmap_app, merge_completed_app.
    fold (succeeded earlier).
    destruct (merge_succeeded earlier state) as (middle & -> & _).
    rewrite fmap_cons. cbn [EditPipeline.merge_completed fst snd].
    fold (succeeded later).
    destruct (merge_succeeded later (update ∪ middle)) as (final & -> & Hkeep).
    exists final. split; [done|].
    rewrite (Hkeep key Hnone). by apply lookup_union_Some_l.
Qed.

Lemma merge_last_writer_wins_witness :
  ∃ final,
    EditPipeline.merge_completed
      (succeeded ([("business_analyst", {["business_analysis" := VStr "first"]})]
                  ++ ("technical_architect",
                      {["business_analysis" := VStr "second"]})
                  :: [("project_manager", {["project_plan" := VStr "plan"]})]))
      ∅
    = (None, final)
    ∧ final !! "business_analysis" = Some (VStr "second").
Proof.
  apply (proj2 (merge_last_writer_wins ∅ "business_analysis")).
  - apply lookup_singleton_eq.
  - intros a u Hin. apply list_elem_of_singleton in Hin.
    injection Hin as -> ->. by apply lookup_singleton_ne.
Defined.

(** X7. The merge loop stops at the first failure in completion order: the
    updates completed before it are merged, the results after it are not,
    and its exception is the one raised. *)
Theorem merge_stops_at_first_failure (updates : list (string * State))
    (agent_name : string) (e : exn)
    (rest : list (string * result State)) (state : State) :
  ∃ merged,
    EditPipeline.merge_completed (succeeded updates) state = (None, merged)
    ∧ EditPipeline.merge_completed
        (succeeded updates ++ (agent_name, Raise e) :: rest) state
      = (Some e, merged).
Proof.
  destruct (merge_succeeded updates state) as (merged & Hrun & _).
  exists merged. split; [done|].
  by rewrite merge_completed_app, Hrun.
Qed.

(** X8. Agents return the whole state they were given with their own keys
    written over it.  When two agents of a batch do so, a key that was in
    the state before the batch ends with the value of the agent that
    completed last, or with its old value if that agent did not write it:
    what the first agent wrote to it is lost.  Only a key that was not in
    the state survives from the first agent. *)
Theorem sibling_update_lost (snapshot writes1 writes2 : State)
    (agent1 agent2 key : string) :
  ∃ final,
    EditPipeline.merge_completed
      [ (agent1, Ok (writes1 ∪ snapshot)); (agent2, Ok (writes2 ∪ snapshot)) ]
      snapshot
    = (None, final)
    ∧ final !! key
      = match writes2 !! key, snapshot !! key with
        | Some v, _ => Some v
        | None, Some old => Some old
        | None, None => writes1 !! key
        end.
Proof.
  eexists. split; [reflexivity|].
  rewrite !lookup_union.
  destruct (writes2 !! key), (snapshot !! key), (writes1 !! key); done.
Qed.

Lemma merge_completed_failure completed state a e :
  (a, Raise e) ∈ completed →
  ∃ e' state', EditPipeline.merge_completed completed state = (Some e', state').
Proof.
  revert state. induction completed as [|[b [u|e0]] l IH]; intros state Hin.
  - by apply elem_of_nil in Hin.
  - apply elem_of_cons in Hin as [?|Hin]; [done|]. simpl. by apply IH.
  - simpl. by eexists _, _.
Qed.

(** X9. An agent that is missing from the registry is not detected before
    dispatch: the edit pipeline submits the whole sequence as its batch and
    the run then raises. *)
Theorem unknown_agent_raises_after_dispatch (rt : Runtime)
    (this : EditPipeline.self) (state : State)
    (agent_sequence : list string) (agent_name : string) :
  (∀ futures, as_completed rt futures ≡ₚ futures) →
  EditPipeline.agents_to_update this ≠ [] →
  EditPipeline.get_agent_sequence this = Some agent_sequence →
  agent_name ∈ agent_sequence →
  AGENT_REGISTRY rt agent_name = None →
  (∃ e, run_outcome (EditPipeline.execute rt this state) = Raises e)
  ∧ batches (EditPipeline.execute rt this state) = [agent_sequence].
Proof.
  intros Hperm Hupd Hseq Hin Hreg.
  unfold EditPipeline.execute, EditPipeline.validate_prerequisites.
  destruct (EditPipeline.agents_to_update this) as [|x xs]; [done|].
  cbn [negb]. rewrite Hseq.
  destruct agent_sequence as [|a0 l]; [by apply elem_of_nil in Hin|].
  destruct (merge_completed_failure
              (as_completed rt (submit_all rt (a0 :: l) state)) state
              agent_name
              (ValueError ("Agent '" +:+ agent_name +:+ "' not found in registry")))
    as (e' & state' & Hmerge).
  { rewrite Hperm. unfold submit_all. apply list_elem_of_fmap.
    exists agent_name. split; [|done]. unfold _run_agent. by rewrite Hreg. }
  rewrite Hmerge. simpl. split; [by eexists|done].
Qed.

Lemma unknown_agent_raises_after_dispatch_witness :
  let rt := {| AGENT_REGISTRY := λ _, None; as_completed := λ futures, futures |} in
  let this := {| EditPipeline.session := fresh_session;
                 EditPipeline.agents_to_update := ["title"] |} in
  (∃ e, run_outcome (EditPipeline.execute rt this ∅) = Raises e)
  ∧ batches (EditPipeline.execute rt this ∅) = [["title"]].
Proof.
  apply (unknown_agent_raises_after_dispatch
           {| AGENT_REGISTRY := λ _, None; as_completed := λ futures, futures |}
           {| EditPipeline.session := fresh_session;
              EditPipeline.agents_to_update := ["title"] |}
           ∅ ["title"] "title"); try done.
  by left.
Defined.

(** X10. In a request of several tasks, names outside the canonical order
    are dropped without an error as soon as one requested name is in it:
    every task of the sequence is then a task of the canonical order. *)
Theorem unknown_names_dropped (this : EditPipeline.self)
    (primary_agents : list string) (known : string) :
  length primary_agents ≠ 1 →
  known ∈ primary_agents →
  known ∈ EditPipeline.agent_order →
  ∃ agent_sequence,
    EditPipeline._expand_with_dependencies this primary_agents
    = Some agent_sequence
    ∧ known ∈ agent_sequence
    ∧ ∀ a, a ∈ agent_sequence → a ∈ EditPipeline.agent_order.
Proof.
  intros Hlen Hin Hord.
  unfold EditPipeline._expand_with_dependencies,
    EditPipeline._expand_with_dependencies_on.
  case_decide; [done|].
  destruct (negb _).
  - assert (known ∈ filter (λ a, a ∈ primary_agents) EditPipeline.agent_order)
      as Hf by (by apply list_elem_of_filter).
    destruct (filter _ EditPipeline.agent_order) as [|x l] eqn:Heq;
      [by apply elem_of_nil in Hf|].
    eexists. split; [done|]. split; [done|].
    intros a Ha. rewrite <- Heq in Ha.
    by apply list_elem_of_filter in Ha as [_ ?].
  - destruct (forward_closure_total EditPipeline.get_agent_dependencies
                primary_agents) as [aff Haff].
    rewrite Haff. cbn [mbind option_bind]. eexists. split; [done|]. split.
    + apply list_elem_of_filter. split; [|done].
      apply (forward_closure_spec _ _ _ Haff). by constructor.
    + intros a Ha. by apply list_elem_of_filter in Ha as [_ ?].
Qed.

Lemma unknown_names_dropped_witness :
  ∃ agent_sequence,
    EditPipeline._expand_with_dependencies
      {| EditPipeline.session := fresh_session;
         EditPipeline.agents_to_update := ["title"; "executive_summary"] |}
      ["title"; "executive_summary"]
    = Some agent_sequence
    ∧ "title" ∈ agent_sequence
    ∧ ∀ a, a ∈ agent_sequence → a ∈ EditPipeline.agent_order.
Proof.
  apply (unknown_names_dropped
           {| EditPipeline.session := fresh_session;
              EditPipeline.agents_to_update := ["title"; "executive_summary"] |}
           ["title"; "executive_summary"] "title").
  - simpl. lia.
  - by left.
  - by left.
Defined.

(** ** The session during a run of the full pipeline *)

Lemma rstrip_idemp s : rstrip (rstrip s) = rstrip s.
Proof.
  induction s as [|c s IH]; [done|]. simpl.
  destruct (rstrip s) as [|c' t] eqn:Ht.
  - destruct (py_isspace c) eqn:Hc; [done|]. simpl. by rewrite Hc.
  - simpl in *. by rewrite IH.
Qed.

Lemma rstrip_head c s :
  py_isspace c = false → ∃ t, rstrip (String c s) = String c t.
Proof.
  intros Hc. simpl. destruct (rstrip s); rewrite ?Hc; by eexists.
Qed.

Lemma lstrip_head s :
  lstrip s = "" ∨ ∃ c t, lstrip s = String c t ∧ py_isspace c = false.
Proof.
  induction s as [|c s IH]; [by left|]. simpl.
  destruct (py_isspace c) eqn:Hc; [done|]. right. by exists c, s.
Qed.

Lemma strip_idemp s : strip (strip s) = strip s.
Proof.
  unfold strip. destruct (lstrip_head s) as [->|(c & t & -> & Hc)]; [done|].
  destruct (rstrip_head c t Hc) as [t' Ht]. rewrite Ht.
  cbn [lstrip]. rewrite Hc, <- Ht. apply rstrip_idemp.
Qed.

Section FullSession.

Import FullProposalPipeline.

Lemma title_update_refl sess : title_update sess sess.
Proof. unfold title_update. tauto. Qed.

Lemma title_update_trans s1 s2 s3 :
  title_update s1 s2 → title_update s2 s3 → title_update s1 s3.
Proof.
  unfold title_update. intros (-> & -> & -> & H12) (-> & -> & -> & H23).
  split_and!; try done. destruct H23 as [->|?]; tauto.
Qed.

Lemma save_title_update agent_name updated_state sess sess' :
  save_title agent_name updated_state sess = Ok sess' →
  title_update sess sess'.
Proof.
  unfold save_title. destruct (String.eqb agent_name "title");
    [|intros [= <-]; apply title_update_refl].
  destruct (updated_state !! "proposal_title") as [[| | |s| |]|];
    try discriminate; [|intros [= <-]; apply title_update_refl].
  destruct (String.eqb_spec (strip s) "") as [|Hne];
    intros [= <-]; [apply title_update_refl|].
  unfold title_update. simpl. split_and!; try done. right.
  split; [done|apply strip_idemp].
Qed.

Lemma merge_completed_title_update completed state sess :
  title_update sess (merge_completed completed state sess).2.
Proof.
  revert state sess. induction completed as [|[a [u|e]] l IH];
    intros state sess; simpl; try apply title_update_refl.
  destruct (save_title a u sess) as [sess'|e] eqn:Hsave;
    [|apply title_update_refl].
  eapply title_update_trans; [by eapply save_title_update|apply IH].
Qed.

Lemma run_groups_session rt agent_sequence parallel_groups state sess submitted :
  let r := run_groups rt agent_sequence parallel_groups state sess submitted in
  match run_outcome r with
  | Returns =>
      ∃ sess', title_update sess sess'
               ∧ final_session r
                 = {| is_proposal_generated := true;
                      initial_idea := initial_idea sess';
                      proposal_title := proposal_title sess';
                      current_stage := "completed";
                      saves := S (saves sess') |}
  | Raises _ => title_update sess (final_session r)
  | Diverges => False
  end.
Proof.
  revert state sess submitted.
  induction parallel_groups as [|g rest IH]; intros state sess submitted; simpl.
  - exists sess. split; [apply title_update_refl|done].
  - destruct (filter _ g) as [|a g'] eqn:Hg; [apply IH|].
    pose proof (merge_completed_title_update
                  (as_completed rt (submit_all rt (a :: g') state)) state sess)
      as Hstep.
    destruct (merge_completed _ _ _) as [[[e|] state'] sess']; simpl in *;
      [done|].
    specialize (IH state' sess' (submitted ++ [a :: g'])). simpl in IH.
    destruct (run_outcome _); [|by eapply title_update_trans|done].
    destruct IH as (sess'' & Hup & Hfinal). exists sess''.
    split; [by eapply title_update_trans|done].
Qed.

End FullSession.

(** X11. A run of the full pipeline marks the session as generated, with
    stage "completed", exactly when it returns; when it raises, the flag and
    the stage are those of the session before the run.  The initial idea of
    the session is never touched. *)
Theorem full_run_marks_session (rt : Runtime)
    (this : FullProposalPipeline.self) (state : State) :
  let before := FullProposalPipeline.session this in
  let r := FullProposalPipeline.execute rt this state in
  initial_idea (final_session r) = initial_idea before
  ∧ match run_outcome r with
    | Returns =>
        is_proposal_generated (final_session r) = true
        ∧ current_stage (final_session r) = "completed"
    | Raises _ =>
        is_proposal_generated (final_session r) = is_proposal_generated before
        ∧ current_stage (final_session r) = current_stage before
    | Diverges => False
    end.
Proof.
  intros before r. subst before r. unfold FullProposalPipeline.execute,
    FullProposalPipeline.validate_prerequisites,
    BasePipeline.validate_prerequisites. cbn [negb].
  destruct (FullProposalPipeline.enabled_sequence state) as [seq|e];
    [|done].
  set (groups := FullProposalPipeline.filter_groups seq
                   FullProposalPipeline.get_parallel_groups).
  pose proof (run_groups_session rt seq groups state
                (FullProposalPipeline.session this) []) as Hrun.
  cbv zeta in Hrun.
  destruct (FullProposalPipeline.run_groups rt seq groups state
              (FullProposalPipeline.session this) [])
    as [out final sess b]. cbn [run_outcome final_session] in *.
  destruct out; [|destruct Hrun as (? & ? & ? & _); done|done].
  destruct Hrun as (sess' & (? & ? & ? & _) & ->). done.
Qed.

(** X12. The title stored in the session is only ever replaced by the title
    the title agent returned, stripped of surrounding white space, and never
    by an empty one: after a run the title is the old one, or it is not
    empty and has no surrounding white space. *)
Theorem session_title_never_blank (rt : Runtime)
    (this : FullProposalPipeline.self) (state : State) :
  let r := FullProposalPipeline.execute rt this state in
  proposal_title (final_session r)
  = proposal_title (FullProposalPipeline.session this)
  ∨ proposal_title (final_session r) ≠ ""
    ∧ strip (proposal_title (final_session r))
      = proposal_title (final_session r).
Proof.
  intros r. subst r. unfold FullProposalPipeline.execute,
    FullProposalPipeline.validate_prerequisites,
    BasePipeline.validate_prerequisites. cbn [negb].
  destruct (FullProposalPipeline.enabled_sequence state) as [seq|e];
    [|by left].
  set (groups := FullProposalPipeline.filter_groups seq
                   FullProposalPipeline.get_parallel_groups).
  pose proof (run_groups_session rt seq groups state
                (FullProposalPipeline.session this) []) as Hrun.
  cbv zeta in Hrun.
  destruct (FullProposalPipeline.run_groups rt seq groups state
              (FullProposalPipeline.session this) [])
    as [out final sess b]. cbn [run_outcome final_session] in *.
  destruct out; [|by destruct Hrun as (_ & _ & _ & ?)|done].
  destruct Hrun as (sess' & (_ & _ & _ & Htitle) & ->). done.
Qed.

(** ** The factory and the executor *)

(** X13. A pipeline built by [create_from_master_agent_instruction] always
    passes its own validation, so the executor never answers "Pipeline
    prerequisites not met" for it and its run is the run of the pipeline
    itself; the pipeline works on the session it was given.  The factory
    refuses exactly the actions other than "generate_proposal" and "edit",
    and "edit" without tasks. *)
Theorem factory_pipeline_is_valid (instruction : MasterAgent.RoutingDecision)
    (session : Session) :
  match PipelineFactory.create_from_master_agent_instruction instruction session with
  | Ok pipeline =>
      (MasterAgent.action instruction = "generate_proposal"
       ∨ MasterAgent.action instruction = "edit"
         ∧ MasterAgent.agents_to_rerun instruction ≠ [])
      ∧ pipeline_session pipeline = session
      ∧ ∀ rt state,
          pipeline_validate_prerequisites pipeline state = true
          ∧ (PipelineExecutor.execute rt pipeline state).1
            = pipeline_execute rt pipeline state
  | Raise e =>
      (∃ msg, e = ValueError msg)
      ∧ MasterAgent.action instruction ≠ "generate_proposal"
      ∧ (MasterAgent.action instruction = "edit" →
         MasterAgent.agents_to_rerun instruction = [])
  end.
Proof.
  unfold PipelineFactory.create_from_master_agent_instruction,
    PipelineFactory.create_pipeline.
  destruct (String.eqb_spec (MasterAgent.action instruction) "generate_proposal")
    as [Hgen|Hgen].
  - simpl. split; [by left|]. split; [done|]. intros rt state.
    split; [done|]. reflexivity.
  - destruct (String.eqb_spec (MasterAgent.action instruction) "edit")
      as [Hedit|Hedit].
    + destruct (MasterAgent.agents_to_rerun instruction) as [|a l] eqn:Hagents.
      * split; [by eexists|]. done.
      * simpl. split; [by right|]. split; [done|]. intros rt state.
        split; [done|]. unfold PipelineExecutor.execute. simpl. done.
    + split; [by eexists|]. split; [done|]. intros ?. done.
Qed.

(** ** Routing *)

Section RoutingFacts.

Import Routing.



End RoutingFacts.

(** X14. A generation trigger anywhere in the message decides the turn,
    also inside a word ("generate" in "regenerate"): whatever the
    classifier would say and whatever the session, [route_request] answers
    "generate_proposal" with no task list, and the factory builds the full
    pipeline from that decision. *)
Theorem generation_trigger_wins (classified : option Routing.RoutingResult)
    (user_message : string) (session : Session) :
  Routing.any_in Routing.generate_triggers (lower user_message) = true →
  let routed := Routing.route_request classified user_message session in
  MasterAgent.action (Routing.decision routed) = "generate_proposal"
  ∧ MasterAgent.agents_to_rerun (Routing.decision routed) = []
  ∧ Routing.needs_proposal_generation routed = true
  ∧ PipelineFactory.create_from_master_agent_instruction
      (Routing.decision routed) session
    = Ok (PipelineFactory.FullProposal
            {| FullProposalPipeline.session := session |}).
Proof.
  intros Htrigger. unfold Routing.route_request. rewrite Htrigger. done.
Qed.

Lemma generation_trigger_wins_witness :
  let routed :=
    Routing.route_request
      (Some {| Routing.decision :=
                 {| MasterAgent.action := "edit";
                    MasterAgent.agents_to_rerun := ["title"];
                    MasterAgent.extracted_settings := Routing.no_settings |};
               Routing.relevant_context_sections := None;
               Routing.reasoning := None;
               Routing.confidence := None;
               Routing.needs_proposal_generation := false |})
      "Regenerate the title" generated_session in
  MasterAgent.action (Routing.decision routed) = "generate_proposal"
  ∧ MasterAgent.agents_to_rerun (Routing.decision routed) = []
  ∧ Routing.needs_proposal_generation routed = true
  ∧ PipelineFactory.create_from_master_agent_instruction
      (Routing.decision routed) generated_session
    = Ok (PipelineFactory.FullProposal
            {| FullProposalPipeline.session := generated_session |}).
Proof.
  apply generation_trigger_wins. reflexivity.
Defined.




Section DedupeFacts.

Import Routing.

Lemma dedupe_elem_of seen l x :
  x ∈ dedupe seen l ↔ x ∈ l ∧ x ∉ seen.
Proof.
  revert seen. induction l as [|y l IH]; intros seen; simpl.
  - split; [by intros ?%elem_of_nil|by intros [?%elem_of_nil _]].
  - case_decide as Hy.
    + rewrite IH, elem_of_cons. split; [tauto|].
      intros [[->|?] ?]; tauto.
    + rewrite !elem_of_cons, IH, elem_of_cons. split.
      * intros [->|[? ?]]; [tauto|]. split; [tauto|]. tauto.
      * intros [[->|Hx] Hs]; [by left|].
        destruct (decide (x = y)) as [->|]; [by left|]. right. tauto.
Qed.

Lemma dedupe_NoDup seen l : NoDup (dedupe seen l).
Proof.
  revert seen. induction l as [|y l IH]; intros seen; simpl; [constructor|].
  case_decide; [apply IH|]. constructor; [|apply IH].
  rewrite dedupe_elem_of. intros [_ Hn]. apply Hn. by left.
Qed.

Lemma sections_by_keyword_valid user_message :
  sections_by_keyword user_message ≠ []
  ∧ ∀ s, s ∈ sections_by_keyword user_message → s ∈ valid_sections.
Proof.
  unfold sections_by_keyword, valid_sections.
  repeat (destruct (any_in _ _)); (split; [done|]); intros s Hs; set_solver.
Qed.

Lemma valid_items_valid v l s :
  valid_items v = Ok l → s ∈ l → s ∈ valid_sections.
Proof.
  destruct v as [| | |str|items|d]; simpl; try discriminate; intros [= <-].
  - by intros ?%elem_of_nil.
  - intros Hs. apply list_elem_of_omap in Hs as (x & _ & Hx).
    destruct x; try discriminate. case_decide; [|done]. by injection Hx as <-.
  - by intros [? _]%list_elem_of_filter.
Qed.

End DedupeFacts.

(** X17. Whatever the language model answered, and also when its call or
    the parsing failed, [_identify_relevant_sections] returns a list that is
    not empty, has no duplicates and holds valid section identifiers
    only. *)
Theorem relevant_sections_valid (parsed : option Routing.parsed_sections)
    (user_message : string) :
  let sections := Routing._identify_relevant_sections parsed user_message in
  sections ≠ []
  ∧ NoDup sections
  ∧ ∀ s, s ∈ sections → s ∈ Routing.valid_sections.
Proof.
  intros sections. subst sections. unfold Routing._identify_relevant_sections.
  set (from_model := match parsed with Some _ => _ | None => _ end).
  set (chosen := match from_model with
                 | Ok [] => _ | Ok sections => _ | Raise _ => _ end).
  assert (chosen ≠ [] ∧ ∀ s, s ∈ chosen → s ∈ Routing.valid_sections)
    as [Hne Hvalid].
  { assert (∀ l, from_model = Ok l → ∀ s, s ∈ l → s ∈ Routing.valid_sections)
      as Hmodel.
    { subst from_model. destruct parsed as [[items|d|]|]; try discriminate.
      - intros l [= <-] s [? _]%list_elem_of_filter. done.
      - destruct (dict_get "sections" d) as [v|];
          [intros l Hl s; by apply (valid_items_valid v)|].
        destruct (dict_get "section_ids" d) as [v|];
          [intros l Hl s; by apply (valid_items_valid v)|].
        intros l [= <-] s Hs. unfold Routing.valid_sections. set_solver.
      - intros l [= <-] s Hs. unfold Routing.valid_sections. set_solver. }
    subst chosen. destruct from_model as [[|x l]|e].
    - split; [done|]. intros s Hs. unfold Routing.valid_sections. set_solver.
    - split; [done|]. by apply Hmodel.
    - apply sections_by_keyword_valid. }
  split_and!.
  - destruct chosen as [|x l]; [done|]. cbn [Routing.dedupe].
    destruct (decide (x ∈ [])) as [Hx|_]; [by apply elem_of_nil in Hx|done].
  - apply dedupe_NoDup.
  - intros s [Hs _]%dedupe_elem_of. by apply Hvalid.
Qed.


Section CompileFacts.

Import FinalCompilation.

Lemma py_len_raise v e : py_len v = Raise e → e = TypeError.
Proof. destruct v; simpl; congruence. Qed.

(** The three outcomes of the compile task. *)
Lemma final_compilation_cases (state : State) :
  match final_compilation_agent state with
  | Ok out =>
      (missing_components state ≠ []
       ∧ out = <["error" := VStr (error_msg (missing_components state))]>
                 (<["current_stage" := VStr "failed"]> state))
      ∨ (missing_components state = []
         ∧ out = <["current_stage" := VStr "completed"]>
                   (<["final_proposal" := assembled state]> state))
  | Raise e => missing_components state = [] ∧ e = TypeError
  end.
Proof.
  unfold final_compilation_agent.
  destruct (missing_components state) as [|name missing] eqn:Hm; [|by left].
  unfold mbind, result_bind.
  repeat match goal with
         | |- context [py_len ?v] =>
             let H := fresh "Hlen" in
             destruct (py_len v) eqn:H;
             [|split; [done|]; by apply py_len_raise in H]
         end.
  right. done.
Qed.

(** The missing components depend on the five required keys only. *)
Lemma missing_components_ext (state1 state2 : State) :
  (∀ key name, (key, name) ∈ required_components →
     state1 !! key = state2 !! key) →
  missing_components state1 = missing_components state2.
Proof.
  intros Hsame. unfold missing_components, required_components in *.
  rewrite !filter_cons, !filter_nil. cbn [fst]. unfold is_missing, get_or.
  rewrite (Hsame "refined_scope" "refined scope"),
    (Hsame "business_analysis" "business analysis"),
    (Hsame "technical_spec" "technical specification"),
    (Hsame "project_plan" "project plan"),
    (Hsame "resource_plan" "resource plan") by set_solver.
  done.
Qed.

Lemma required_key_cases key name :
  (key, name) ∈ required_components →
  key ∈ ["refined_scope"; "business_analysis"; "technical_spec";
         "project_plan"; "resource_plan"].
Proof. unfold required_components. set_solver. Qed.

Lemma complete_state_compiles :
  final_compilation_agent complete_state
  = Ok (<["current_stage" := VStr "completed"]>
          (<["final_proposal" := assembled complete_state]> complete_state)).
Proof.
  apply final_compilation_completed.
  intros key name Hin. unfold required_components in Hin.
  rewrite !elem_of_cons, elem_of_nil in Hin.
  repeat (destruct Hin as [Hin|Hin]; [|]); try done;
    injection Hin as -> ->; eexists; (split; [reflexivity|]);
    vm_compute; discriminate.
Qed.

End CompileFacts.

(** X19. The result helpers find no document in a compiled proposal: after
    a successful compile, [compile_final_proposal] reports empty
    ["html_content"] and ["raw_content"], and [prepare_document_content]
    returns the empty string for every format. *)
Theorem compiled_proposal_has_no_document (state out : State)
    (format_type : string) :
  FinalCompilation.missing_components state = [] →
  FinalCompilation.final_compilation_agent state = Ok out →
  ∃ proposal_data,
    ResultUtils.compile_final_proposal out = Ok proposal_data
    ∧ proposal_data !! "html_content" = Some (VStr "")
    ∧ proposal_data !! "raw_content" = Some (VStr "")
    ∧ ResultUtils.prepare_document_content proposal_data format_type = VStr "".
Proof.
  intros Hm Hrun. pose proof (final_compilation_cases state) as Hcases.
  rewrite Hrun in Hcases. destruct Hcases as [[Hne _]|[_ ->]]; [done|].
  unfold ResultUtils.compile_final_proposal.
  assert (FinalCompilation.get_or
            (<["current_stage" := VStr "completed"]>
               (<["final_proposal" := assembled state]> state))
            "final_proposal" (VDict []) = assembled state) as ->.
  { unfold FinalCompilation.get_or.
    rewrite lookup_insert_ne by done. by rewrite lookup_insert_eq. }
  unfold assembled at 1 2. cbn [ResultUtils.value_get dict_get String.eqb
    Ascii.eqb Bool.eqb mbind result_bind].
  eexists. split; [reflexivity|].
  assert (∀ (data : State),
            data !! "html_content" = Some (VStr "") →
            data !! "raw_content" = Some (VStr "") →
            ResultUtils.prepare_document_content data format_type = VStr "")
    as Hdoc.
  { intros data Hh Hr.
    unfold ResultUtils.prepare_document_content,
      ResultUtils.get_proposal_content_as_html, FinalCompilation.get_or.
    rewrite Hh, Hr. by repeat destruct (String.eqb _ _). }
  split_and!; [| |apply Hdoc]; by simplify_map_eq.
Qed.

Lemma compiled_proposal_has_no_document_witness :
  ∃ out proposal_data,
    FinalCompilation.final_compilation_agent complete_state = Ok out
    ∧ ResultUtils.compile_final_proposal out = Ok proposal_data
    ∧ ResultUtils.prepare_document_content proposal_data "html" = VStr "".
Proof.
  assert (FinalCompilation.missing_components complete_state = []) as Hm
    by (vm_compute; reflexivity).
  pose proof (complete_state_compiles) as Hrun.
  destruct (compiled_proposal_has_no_document complete_state _ "html" Hm Hrun)
    as (proposal_data & Hdata & _ & _ & Hdoc).
  eexists _, proposal_data. split_and!; [exact Hrun|exact Hdata|exact Hdoc].
Defined.


(** X21. Compiling is idempotent: running the compile task on its own
    output returns that output again, for a failed compile as for a
    successful one. *)
Theorem compile_idempotent (state out : State) :
  FinalCompilation.final_compilation_agent state = Ok out →
  FinalCompilation.final_compilation_agent out = Ok out.
Proof.
  intros Hrun. pose proof (final_compilation_cases state) as Hcases.
  rewrite Hrun in Hcases.
  assert (∀ key name, (key, name) ∈ FinalCompilation.required_components →
            out !! key = state !! key) as Hsame.
  { intros key name Hin%required_key_cases.
    destruct Hcases as [[_ ->]|[_ ->]];
      rewrite !lookup_insert_ne; try done;
      intros <-; revert Hin; rewrite !elem_of_cons, elem_of_nil;
      intros Hin; by repeat (destruct Hin as [Hin|Hin]; [discriminate|]). }
  pose proof (missing_components_ext out state Hsame) as Hmissing.
  pose proof (final_compilation_cases out) as Hout.
  destruct Hcases as [[Hne Hfailed]|[Hm Hdone]].
  - destruct (FinalCompilation.final_compilation_agent out) as [out'|e].
    + destruct Hout as [[_ ->]|[Hm' _]]; [|congruence].
      rewrite Hmissing. f_equal. rewrite Hfailed. apply map_eq. intros key.
      destruct (decide (key = "error")) as [->|];
        [by rewrite !lookup_insert_eq|].
      destruct (decide (key = "current_stage")) as [->|];
        [by rewrite !(lookup_insert_ne _ "error"), !lookup_insert_eq|].
      by rewrite !lookup_insert_ne.
    + destruct Hout as [Hm' _]. congruence.
  - assert (assembled out = assembled state) as Hassembled.
    { unfold assembled, FinalCompilation.get_or. rewrite Hdone.
      by rewrite !lookup_insert_ne by done. }
    assert (FinalCompilation.final_compilation_agent out
            = (x ← FinalCompilation.final_compilation_agent state;
               Ok (<["current_stage" := VStr "completed"]>
                     (<["final_proposal" := assembled out]> out)))) as Hagain.
    { unfold FinalCompilation.final_compilation_agent.
      rewrite Hmissing, Hm.
      fold (assembled out). fold (assembled state).
      unfold FinalCompilation.get_or.
      rewrite !(Hsame "refined_scope" "refined scope"),
        !(Hsame "business_analysis" "business analysis"),
        !(Hsame "technical_spec" "technical specification"),
        !(Hsame "project_plan" "project plan"),
        !(Hsame "resource_plan" "resource plan")
        by (unfold FinalCompilation.required_components; set_solver).
      unfold mbind, result_bind.
      by repeat destruct (py_len _). }
    rewrite Hagain, Hrun. simpl. f_equal. rewrite Hassembled, Hdone.
    apply map_eq. intros key.
    destruct (decide (key = "current_stage")) as [->|];
      [by rewrite !lookup_insert_eq|].
    destruct (decide (key = "final_proposal")) as [->|];
      [by rewrite !(lookup_insert_ne _ "current_stage"), !lookup_insert_eq|].
    by rewrite !lookup_insert_ne.
Qed.

Lemma compile_idempotent_witness :
  ∃ out,
    FinalCompilation.final_compilation_agent complete_state = Ok out
    ∧ FinalCompilation.final_compilation_agent out = Ok out.
Proof.
  eexists. split; [exact complete_state_compiles|].
  exact (compile_idempotent complete_state _ complete_state_compiles).
Defined.

Section RateFacts.

Import MasterAgent.




End RateFacts.



(** ** The routing of the graph *)

Section GraphFacts.

Import ProposalGraph.

Lemma to_run_lists agents_to_run sections_generated agent :
  to_run (VList agents_to_run) (VList sections_generated) agent
  = Ok (pending_agent agents_to_run sections_generated agent).
Proof.
  unfold to_run, pending_agent. simpl.
  by destruct (existsb _ agents_to_run).
Qed.

Lemma first_to_run_lists agents_to_run sections_generated agents :
  first_to_run (VList agents_to_run) (VList sections_generated) agents
  = Ok (from_option id "end"
          (List.find (pending_agent agents_to_run sections_generated) agents)).
Proof.
  induction agents as [|agent agents IH]; [done|].
  cbn [first_to_run List.find]. rewrite to_run_lists. simpl.
  by destruct (pending_agent _ _ agent).
Qed.

Lemma pending_agent_generated agents_to_run sections_generated name agent :
  pending_agent agents_to_run (sections_generated ++ [VStr name]) agent
  = pending_agent agents_to_run sections_generated agent
    && negb (String.eqb agent name).
Proof.
  unfold pending_agent. rewrite existsb_app. simpl.
  rewrite orb_false_r, negb_orb. by rewrite andb_assoc.
Qed.

Lemma first_to_run_spec agents_to_run sections_generated agents agent :
  first_to_run agents_to_run sections_generated agents = Ok agent →
  (agent = "end"
   ∧ ∀ a, a ∈ agents → to_run agents_to_run sections_generated a = Ok false)
  ∨ ∃ earlier later,
      agents = earlier ++ agent :: later
      ∧ to_run agents_to_run sections_generated agent = Ok true
      ∧ ∀ a, a ∈ earlier → to_run agents_to_run sections_generated a = Ok false.
Proof.
  induction agents as [|a agents IH]; simpl.
  - intros [= <-]. left. split; [done|]. by intros a ?%elem_of_nil.
  - destruct (to_run agents_to_run sections_generated a) as [[]|e] eqn:Ha;
      simpl; [| |done].
    + intros [= <-]. right. exists [], agents. split_and!; [done|done|].
      by intros x ?%elem_of_nil.
    + intros Hrest. destruct (IH Hrest) as [[-> Hnone]|(earlier & later & -> & Hrun & Hearlier)].
      * left. split; [done|]. intros x [->|Hx]%elem_of_cons; [done|by apply Hnone].
      * right. exists (a :: earlier), later. split_and!; [done|done|].
        intros x [->|Hx]%elem_of_cons; [done|by apply Hearlier].
Qed.

End GraphFacts.

(** X23. [route_to_agent] and [should_run_agent] agree on the seven agents
    of the graph: an agent routed to is one of the seven and should run, no
    agent before it in the order should, and otherwise the answer is ["end"]
    and none of the seven should run.  An agent that is not one of the
    seven is never routed to, whatever [should_run_agent] says of it. *)
Theorem route_agrees_with_should_run (state : State) (agent : string) :
  ProposalGraph.route_to_agent state = Ok agent →
  (agent = "end"
   ∧ ∀ a, a ∈ ProposalGraph.agent_order →
          ProposalGraph.should_run_agent state a = Ok false)
  ∨ (∃ earlier later,
       ProposalGraph.agent_order = earlier ++ agent :: later
       ∧ ProposalGraph.should_run_agent state agent = Ok true
       ∧ ∀ a, a ∈ earlier → ProposalGraph.should_run_agent state a = Ok false).
Proof.
  unfold ProposalGraph.route_to_agent, ProposalGraph.should_run_agent.
  apply first_to_run_spec.
Qed.

Lemma route_agrees_with_should_run_witness :
  let state : State :=
    {[ "agents_to_run" := VList [VStr "project_manager"; VStr "reviewer";
                                 VStr "final_compilation"];
       "sections_generated" := VList [VStr "title"] ]} in
  ProposalGraph.route_to_agent state = Ok "project_manager"
  ∧ ProposalGraph.should_run_agent state "project_manager" = Ok true
  ∧ ProposalGraph.should_run_agent state "reviewer" = Ok true.
Proof.
  intros state.
  assert (ProposalGraph.route_to_agent state = Ok "project_manager") as Hroute
    by reflexivity.
  destruct (route_agrees_with_should_run state "project_manager" Hroute)
    as [[Hend _]|(earlier & later & _ & Hrun & _)]; [discriminate|].
  split_and!; [exact Hroute|exact Hrun|reflexivity].
Defined.

(** X24. The router never leaves the edge map.  Let a node of the graph run
    on a state whose ["agents_to_run"] is a list, the node being the entry
    [title] or the agent [route_to_agent] chose, and let its agent leave
    ["agents_to_run"] as it is.  Then [route_to_agent], applied to the
    state the node returns, succeeds with a key of the node's edge map that
    is not the node itself: no node runs twice in a row, and the graph is
    never sent to a node it has no edge to. *)
Theorem next_agent_is_an_edge (rt : Runtime) (state state' : State)
    (node : string) (agents_to_run : list value) :
  FinalCompilation.get_or state "agents_to_run" (VList []) = VList agents_to_run →
  FinalCompilation.get_or state' "agents_to_run" (VList []) = VList agents_to_run →
  node = "title" ∨ (ProposalGraph.route_to_agent state = Ok node ∧ node ≠ "end") →
  ProposalGraph.agent_node rt node state = Ok state' →
  ∃ next,
    ProposalGraph.route_to_agent state' = Ok next
    ∧ next ∈ ProposalGraph.edges node
    ∧ next ≠ node.
Proof.
  intros Hrun Hrun' Hnode Hstep.
  unfold ProposalGraph.agent_node in Hstep.
  destruct (AGENT_REGISTRY rt node) as [agent|]; [|done].
  destruct (agent state) as [updated_state|e]; [|done]. simpl in Hstep.
  destruct (FinalCompilation.get_or state "sections_generated" (VList []))
    as [| | | |sections_generated|] eqn:Hgen; try done.
  simpl in Hstep. injection Hstep as <-.
  unfold ProposalGraph.route_to_agent in *.
  rewrite Hrun', Hrun in *. rewrite Hgen in Hnode.
  assert (FinalCompilation.get_or
            (<["sections_generated" := VList (sections_generated ++ [VStr node])]>
               (updated_state ∪ state)) "sections_generated" (VList [])
          = VList (sections_generated ++ [VStr node])) as ->.
  { unfold FinalCompilation.get_or. by rewrite lookup_insert_eq. }
  rewrite first_to_run_lists in *.
  set (P := pending_agent agents_to_run sections_generated) in *.
  assert (∀ a, pending_agent agents_to_run
                 (sections_generated ++ [VStr node]) a
               = P a && negb (String.eqb a node)) as HP'
    by (intros a; apply pending_agent_generated).
  eexists. split; [reflexivity|].
  unfold ProposalGraph.agent_order in *. cbn [List.find] in *.
  rewrite !HP'. clear HP' Hrun Hrun' Hgen.
  destruct Hnode as [->|[Hroute Hne]].
  - cbn [String.eqb Ascii.eqb Bool.eqb negb andb]. rewrite andb_false_r.
    repeat match goal with
           | |- context [P ?a] => destruct (P a)
           end; cbn; (split; [set_solver|done]).
  - repeat match type of Hroute with
           | context [P ?a] =>
               let H := fresh "HP" in
               destruct (P a) eqn:H;
               [injection Hroute as <-; clear Hne|]
           end; [..|by injection Hroute as <-];
    cbn [String.eqb Ascii.eqb Bool.eqb negb andb];
    rewrite ?andb_false_r, ?andb_true_r;
    repeat match goal with
           | H : P ?a = _ |- context [P ?a] => rewrite H
           end;
    repeat match goal with
           | |- context [P ?a] => destruct (P a)
           end; cbn; (split; [set_solver|done]).
Qed.

Lemma next_agent_is_an_edge_witness :
  let state : State :=
    {[ "agents_to_run" := VList [VStr "business_analyst"; VStr "final_compilation"];
       "sections_generated" := VList [VStr "title"] ]} in
  ∃ state',
    ProposalGraph.agent_node echo_runtime "business_analyst" state = Ok state'
    ∧ ProposalGraph.route_to_agent state' = Ok "final_compilation".
Proof.
  intros state.
  set (state' := <["sections_generated" :=
                     VList [VStr "title"; VStr "business_analyst"]]>
                   (state ∪ state)).
  assert (ProposalGraph.agent_node echo_runtime "business_analyst" state
          = Ok state') as Hstep by reflexivity.
  exists state'. split; [exact Hstep|].
  destruct (next_agent_is_an_edge echo_runtime state state' "business_analyst"
              [VStr "business_analyst"; VStr "final_compilation"])
    as (next & Hnext & _ & _);
    [reflexivity|reflexivity|right; split; [reflexivity|discriminate]|exact Hstep|].
  rewrite Hnext. f_equal.
  assert (ProposalGraph.route_to_agent state' = Ok "final_compilation") as Hroute
    by reflexivity.
  congruence.
Defined.
